(** * udc2mongo: the UCD flattening, validation and persistence pipeline

    A shallow embedding of [model/repertoire.go], [model/models.go],
    [model/parser.go], [database/mongo.go] and the persisting part of
    [main.go], followed by the properties proved about them.

    Conventions of the embedding:
    - a Go [string] is a [string] (a sequence of bytes);
    - a Go slice is a [list]; the [nil] slice and the empty slice coincide,
      as they do for every operation the program applies ([len], [range],
      [append]);
    - a Go pointer that may be [nil] is an [option];
    - a Go [error] is an [option error], [None] being [nil];
    - one Go struct is one module holding the record [t], its zero value and
      the field updates the program performs. *)

From Stdlib Require Import String Ascii ZArith NArith List Bool Arith Lia FinFun.
From Stdlib Require Import DecimalString.
From Equations Require Import Equations.
Import ListNotations.
Local Open Scope string_scope.
Local Open Scope list_scope.

(** ** Scalar types *)

(** [model.UCDBool] is [type UCDBool bool]. *)
Definition UCDBool : Type := bool.

(** [primitive.ObjectID] is a 12-byte value; it is read here as the natural
    number those bytes spell.  The all-zero value is [primitive.NilObjectID]. *)
Definition ObjectID : Type := N.

(** [time.Time], read as an instant on a discrete time line. *)
Definition Time : Type := Z.

(** ** [model/repertoire.go] *)

Module AgeProperties.

Record t : Type := mk {
  Age : string
}.

(* The Go zero value of the struct. *)
Definition zero : t :=
  mk
    EmptyString.

End AgeProperties.

Module NameProperties.

Record t : Type := mk {
  Name : string;
  Name1 : string
}.

(* The Go zero value of the struct. *)
Definition zero : t :=
  mk
    EmptyString EmptyString.

Definition set_Name (v : string) (r : t) : t :=
  match r with
  | mk _ Name1 => mk v Name1
  end.

Definition set_Name1 (v : string) (r : t) : t :=
  match r with
  | mk Name _ => mk Name v
  end.

End NameProperties.

Module NameAlias.

Record t : Type := mk {
  Alias : string;
  Type_ : string
}.

(* The Go zero value of the struct. *)
Definition zero : t :=
  mk
    EmptyString EmptyString.

End NameAlias.

Module BidiProperties.

Record t : Type := mk {
  BidiClass : string;
  BidiMirrored : UCDBool;
  BidiMirroringGlyph : string;
  BidiControl : UCDBool;
  BidiPairedBracketType : string;
  BidiPairedBracket : string
}.

(* The Go zero value of the struct. *)
Definition zero : t :=
  mk
    EmptyString false EmptyString false EmptyString EmptyString.

Definition set_BidiMirroringGlyph (v : string) (r : t) : t :=
  match r with
  | mk
      BidiClass BidiMirrored _ BidiControl BidiPairedBracketType
      BidiPairedBracket =>
    mk
      BidiClass BidiMirrored v BidiControl BidiPairedBracketType
      BidiPairedBracket
  end.

End BidiProperties.

Module DecompositionProperties.

Record t : Type := mk {
  DecompositionType : string;
  DecompositionMapping : string;
  CompositionExclusion : UCDBool;
  FullCompositionExclusion : UCDBool;
  NFC_QC : string;
  NFD_QC : string;
  NFKC_QC : string;
  NFKD_QC : string;
  XO_NFC : UCDBool;
  XO_NFD : UCDBool;
  XO_NFKC : UCDBool;
  XO_NFKD : UCDBool;
  FC_NFKC : string
}.

(* The Go zero value of the struct. *)
Definition zero : t :=
  mk
    EmptyString EmptyString false false EmptyString EmptyString EmptyString
    EmptyString false false false false EmptyString.

Definition set_DecompositionMapping (v : string) (r : t) : t :=
  match r with
  | mk
      DecompositionType _ CompositionExclusion FullCompositionExclusion
      NFC_QC NFD_QC NFKC_QC NFKD_QC XO_NFC XO_NFD XO_NFKC XO_NFKD FC_NFKC =>
    mk
      DecompositionType v CompositionExclusion FullCompositionExclusion
      NFC_QC NFD_QC NFKC_QC NFKD_QC XO_NFC XO_NFD XO_NFKC XO_NFKD FC_NFKC
  end.

End DecompositionProperties.

Module NumericProperties.

Record t : Type := mk {
  NumericType : string;
  NumericValue : string
}.

(* The Go zero value of the struct. *)
Definition zero : t :=
  mk
    EmptyString EmptyString.

End NumericProperties.

Module JoiningProperties.

Record t : Type := mk {
  JoiningType : string;
  JoiningGroup : string;
  JoinControl : UCDBool
}.

(* The Go zero value of the struct. *)
Definition zero : t :=
  mk
    EmptyString EmptyString false.

End JoiningProperties.

Module CaseProperties.

Record t : Type := mk {
  Uppercase : UCDBool;
  Lowercase : UCDBool;
  OtherUppercase : UCDBool;
  OtherLowercase : UCDBool;
  SimpleUppercase : string;
  SimpleLowercase : string;
  SimpleTitlecase : string;
  UppercaseMapping : string;
  LowercaseMapping : string;
  TitlecaseMapping : string;
  SimpleCaseFolding : string;
  CaseFolding : string;
  CaseIgnorable : UCDBool;
  Cased : UCDBool;
  ChangesWhenCasefolded : UCDBool;
  ChangesWhenCasemapped : UCDBool;
  ChangesWhenLowercased : UCDBool;
  ChangesWhenNFKCCasefolded : UCDBool;
  ChangesWhenTitlecased : UCDBool;
  ChangesWhenUppercased : UCDBool;
  NFKC_CF : string;
  NFKC_SCF : string
}.

(* The Go zero value of the struct. *)
Definition zero : t :=
  mk
    false false false false EmptyString EmptyString EmptyString EmptyString
    EmptyString EmptyString EmptyString EmptyString false false false false
    false false false false EmptyString EmptyString.

Definition set_SimpleUppercase (v : string) (r : t) : t :=
  match r with
  | mk
      Uppercase Lowercase OtherUppercase OtherLowercase _ SimpleLowercase
      SimpleTitlecase UppercaseMapping LowercaseMapping TitlecaseMapping
      SimpleCaseFolding CaseFolding CaseIgnorable Cased ChangesWhenCasefolded
      ChangesWhenCasemapped ChangesWhenLowercased ChangesWhenNFKCCasefolded
      ChangesWhenTitlecased ChangesWhenUppercased NFKC_CF NFKC_SCF =>
    mk
      Uppercase Lowercase OtherUppercase OtherLowercase v SimpleLowercase
      SimpleTitlecase UppercaseMapping LowercaseMapping TitlecaseMapping
      SimpleCaseFolding CaseFolding CaseIgnorable Cased ChangesWhenCasefolded
      ChangesWhenCasemapped ChangesWhenLowercased ChangesWhenNFKCCasefolded
      ChangesWhenTitlecased ChangesWhenUppercased NFKC_CF NFKC_SCF
  end.

Definition set_SimpleLowercase (v : string) (r : t) : t :=
  match r with
  | mk
      Uppercase Lowercase OtherUppercase OtherLowercase SimpleUppercase _
      SimpleTitlecase UppercaseMapping LowercaseMapping TitlecaseMapping
      SimpleCaseFolding CaseFolding CaseIgnorable Cased ChangesWhenCasefolded
      ChangesWhenCasemapped ChangesWhenLowercased ChangesWhenNFKCCasefolded
      ChangesWhenTitlecased ChangesWhenUppercased NFKC_CF NFKC_SCF =>
    mk
      Uppercase Lowercase OtherUppercase OtherLowercase SimpleUppercase v
      SimpleTitlecase UppercaseMapping LowercaseMapping TitlecaseMapping
      SimpleCaseFolding CaseFolding CaseIgnorable Cased ChangesWhenCasefolded
      ChangesWhenCasemapped ChangesWhenLowercased ChangesWhenNFKCCasefolded
      ChangesWhenTitlecased ChangesWhenUppercased NFKC_CF NFKC_SCF
  end.

Definition set_SimpleTitlecase (v : string) (r : t) : t :=
  match r with
  | mk
      Uppercase Lowercase OtherUppercase OtherLowercase SimpleUppercase
      SimpleLowercase _ UppercaseMapping LowercaseMapping TitlecaseMapping
      SimpleCaseFolding CaseFolding CaseIgnorable Cased ChangesWhenCasefolded
      ChangesWhenCasemapped ChangesWhenLowercased ChangesWhenNFKCCasefolded
      ChangesWhenTitlecased ChangesWhenUppercased NFKC_CF NFKC_SCF =>
    mk
      Uppercase Lowercase OtherUppercase OtherLowercase SimpleUppercase
      SimpleLowercase v UppercaseMapping LowercaseMapping TitlecaseMapping
      SimpleCaseFolding CaseFolding CaseIgnorable Cased ChangesWhenCasefolded
      ChangesWhenCasemapped ChangesWhenLowercased ChangesWhenNFKCCasefolded
      ChangesWhenTitlecased ChangesWhenUppercased NFKC_CF NFKC_SCF
  end.

Definition set_UppercaseMapping (v : string) (r : t) : t :=
  match r with
  | mk
      Uppercase Lowercase OtherUppercase OtherLowercase SimpleUppercase
      SimpleLowercase SimpleTitlecase _ LowercaseMapping TitlecaseMapping
      SimpleCaseFolding CaseFolding CaseIgnorable Cased ChangesWhenCasefolded
      ChangesWhenCasemapped ChangesWhenLowercased ChangesWhenNFKCCasefolded
      ChangesWhenTitlecased ChangesWhenUppercased NFKC_CF NFKC_SCF =>
    mk
      Uppercase Lowercase OtherUppercase OtherLowercase SimpleUppercase
      SimpleLowercase SimpleTitlecase v LowercaseMapping TitlecaseMapping
      SimpleCaseFolding CaseFolding CaseIgnorable Cased ChangesWhenCasefolded
      ChangesWhenCasemapped ChangesWhenLowercased ChangesWhenNFKCCasefolded
      ChangesWhenTitlecased ChangesWhenUppercased NFKC_CF NFKC_SCF
  end.

Definition set_LowercaseMapping (v : string) (r : t) : t :=
  match r with
  | mk
      Uppercase Lowercase OtherUppercase OtherLowercase SimpleUppercase
      SimpleLowercase SimpleTitlecase UppercaseMapping _ TitlecaseMapping
      SimpleCaseFolding CaseFolding CaseIgnorable Cased ChangesWhenCasefolded
      ChangesWhenCasemapped ChangesWhenLowercased ChangesWhenNFKCCasefolded
      ChangesWhenTitlecased ChangesWhenUppercased NFKC_CF NFKC_SCF =>
    mk
      Uppercase Lowercase OtherUppercase OtherLowercase SimpleUppercase
      SimpleLowercase SimpleTitlecase UppercaseMapping v TitlecaseMapping
      SimpleCaseFolding CaseFolding CaseIgnorable Cased ChangesWhenCasefolded
      ChangesWhenCasemapped ChangesWhenLowercased ChangesWhenNFKCCasefolded
      ChangesWhenTitlecased ChangesWhenUppercased NFKC_CF NFKC_SCF
  end.

Definition set_TitlecaseMapping (v : string) (r : t) : t :=
  match r with
  | mk
      Uppercase Lowercase OtherUppercase OtherLowercase SimpleUppercase
      SimpleLowercase SimpleTitlecase UppercaseMapping LowercaseMapping _
      SimpleCaseFolding CaseFolding CaseIgnorable Cased ChangesWhenCasefolded
      ChangesWhenCasemapped ChangesWhenLowercased ChangesWhenNFKCCasefolded
      ChangesWhenTitlecased ChangesWhenUppercased NFKC_CF NFKC_SCF =>
    mk
      Uppercase Lowercase OtherUppercase OtherLowercase SimpleUppercase
      SimpleLowercase SimpleTitlecase UppercaseMapping LowercaseMapping v
      SimpleCaseFolding CaseFolding CaseIgnorable Cased ChangesWhenCasefolded
      ChangesWhenCasemapped ChangesWhenLowercased ChangesWhenNFKCCasefolded
      ChangesWhenTitlecased ChangesWhenUppercased NFKC_CF NFKC_SCF
  end.

Definition set_SimpleCaseFolding (v : string) (r : t) : t :=
  match r with
  | mk
      Uppercase Lowercase OtherUppercase OtherLowercase SimpleUppercase
      SimpleLowercase SimpleTitlecase UppercaseMapping LowercaseMapping
      TitlecaseMapping _ CaseFolding CaseIgnorable Cased
      ChangesWhenCasefolded ChangesWhenCasemapped ChangesWhenLowercased
      ChangesWhenNFKCCasefolded ChangesWhenTitlecased ChangesWhenUppercased
      NFKC_CF NFKC_SCF =>
    mk
      Uppercase Lowercase OtherUppercase OtherLowercase SimpleUppercase
      SimpleLowercase SimpleTitlecase UppercaseMapping LowercaseMapping
      TitlecaseMapping v CaseFolding CaseIgnorable Cased
      ChangesWhenCasefolded ChangesWhenCasemapped ChangesWhenLowercased
      ChangesWhenNFKCCasefolded ChangesWhenTitlecased ChangesWhenUppercased
      NFKC_CF NFKC_SCF
  end.

Definition set_CaseFolding (v : string) (r : t) : t :=
  match r with
  | mk
      Uppercase Lowercase OtherUppercase OtherLowercase SimpleUppercase
      SimpleLowercase SimpleTitlecase UppercaseMapping LowercaseMapping
      TitlecaseMapping SimpleCaseFolding _ CaseIgnorable Cased
      ChangesWhenCasefolded ChangesWhenCasemapped ChangesWhenLowercased
      ChangesWhenNFKCCasefolded ChangesWhenTitlecased ChangesWhenUppercased
      NFKC_CF NFKC_SCF =>
    mk
      Uppercase Lowercase OtherUppercase OtherLowercase SimpleUppercase
      SimpleLowercase SimpleTitlecase UppercaseMapping LowercaseMapping
      TitlecaseMapping SimpleCaseFolding v CaseIgnorable Cased
      ChangesWhenCasefolded ChangesWhenCasemapped ChangesWhenLowercased
      ChangesWhenNFKCCasefolded ChangesWhenTitlecased ChangesWhenUppercased
      NFKC_CF NFKC_SCF
  end.

End CaseProperties.

Module ScriptProperties.

Record t : Type := mk {
  Script : string;
  ScriptExtensions : string
}.

(* The Go zero value of the struct. *)
Definition zero : t :=
  mk
    EmptyString EmptyString.

Definition set_Script (v : string) (r : t) : t :=
  match r with
  | mk _ ScriptExtensions => mk v ScriptExtensions
  end.

End ScriptProperties.

Module CodePointProperties.

Record t : Type := mk {
  AgeProperties : AgeProperties.t;
  NameProperties : NameProperties.t;
  NameAliases : list NameAlias.t;
  Block : string;
  GeneralCategory : string;
  CombiningClass : Z;
  BidiProperties : BidiProperties.t;
  DecompositionProperties : DecompositionProperties.t;
  NumericProperties : NumericProperties.t;
  JoiningProperties : JoiningProperties.t;
  LineBreak : string;
  EastAsianWidth : string;
  CaseProperties : CaseProperties.t;
  ScriptProperties : ScriptProperties.t;
  ISOComment : string;
  HangulSyllableType : string;
  JamoShortName : string;
  IndicSyllabicCategory : string;
  IndicMatraCategory : string;
  IndicPositionalCategory : string;
  IndicConjunctBreak : string;
  IDStart : UCDBool;
  OtherIDStart : UCDBool;
  XIDStart : UCDBool;
  IDContinue : UCDBool;
  OtherIDContinue : UCDBool;
  XIDContinue : UCDBool;
  IDCompatMathStart : UCDBool;
  IDCompatMathContinue : UCDBool;
  PatternSyntax : UCDBool;
  PatternWhiteSpace : UCDBool;
  Dash : UCDBool;
  Hyphen : UCDBool;
  QuotationMark : UCDBool;
  TerminalPunctuation : UCDBool;
  SentenceTerminal : UCDBool;
  Diacritic : UCDBool;
  Extender : UCDBool;
  PrependedConcatenationMark : UCDBool;
  Alphabetic : UCDBool;
  OtherAlphabetic : UCDBool;
  Math : UCDBool;
  OtherMath : UCDBool;
  HexDigit : UCDBool;
  ASCIIHexDigit : UCDBool;
  DefaultIgnorable : UCDBool;
  OtherDefaultIgnorable : UCDBool;
  LogicalOrderException : UCDBool;
  WhiteSpace : UCDBool;
  VerticalOrientation : string;
  RegionalIndicator : UCDBool;
  GraphemeBase : UCDBool;
  GraphemeExtend : UCDBool;
  OtherGraphemeExtend : UCDBool;
  GraphemeLink : UCDBool;
  GraphemeClusterBreak : string;
  WordBreak : string;
  SentenceBreak : string;
  Ideographic : UCDBool;
  UnifiedIdeograph : UCDBool;
  EquivalentUnifiedIdeograph : string;
  IDSBinaryOperator : UCDBool;
  IDSTrinaryOperator : UCDBool;
  IDSUnaryOperator : UCDBool;
  Radical : UCDBool;
  Deprecated : UCDBool;
  VariationSelector : UCDBool;
  Noncharacter : UCDBool;
  Emoji : UCDBool;
  EmojiPresentation : UCDBool;
  EmojiModifier : UCDBool;
  EmojiModifierBase : UCDBool;
  EmojiComponent : UCDBool;
  ExtendedPictographic : UCDBool;
  KDefinition : string;
  KMandarin : string;
  KCantonese : string;
  KJapaneseKun : string;
  KJapaneseOn : string;
  KKorean : string;
  KVietnamese : string;
  KTotalStrokes : string;
  KSimplifiedVariant : string;
  KTraditionalVariant : string;
  CreatedAt : Time;
  UpdatedAt : Time
}.

(* The Go zero value of the struct. *)
Definition zero : t :=
  mk
    AgeProperties.zero NameProperties.zero nil EmptyString EmptyString 0%Z
    BidiProperties.zero DecompositionProperties.zero NumericProperties.zero
    JoiningProperties.zero EmptyString EmptyString CaseProperties.zero
    ScriptProperties.zero EmptyString EmptyString EmptyString EmptyString
    EmptyString EmptyString EmptyString false false false false false false
    false false false false false false false false false false false false
    false false false false false false false false false false EmptyString
    false false false false false EmptyString EmptyString EmptyString false
    false EmptyString false false false false false false false false false
    false false false false EmptyString EmptyString EmptyString EmptyString
    EmptyString EmptyString EmptyString EmptyString EmptyString EmptyString
    0%Z 0%Z.

Definition set_NameProperties (v : NameProperties.t) (r : t) : t :=
  match r with
  | mk
      AgeProperties _ NameAliases Block GeneralCategory CombiningClass
      BidiProperties DecompositionProperties NumericProperties
      JoiningProperties LineBreak EastAsianWidth CaseProperties
      ScriptProperties ISOComment HangulSyllableType JamoShortName
      IndicSyllabicCategory IndicMatraCategory IndicPositionalCategory
      IndicConjunctBreak IDStart OtherIDStart XIDStart IDContinue
      OtherIDContinue XIDContinue IDCompatMathStart IDCompatMathContinue
      PatternSyntax PatternWhiteSpace Dash Hyphen QuotationMark
      TerminalPunctuation SentenceTerminal Diacritic Extender
      PrependedConcatenationMark Alphabetic OtherAlphabetic Math OtherMath
      HexDigit ASCIIHexDigit DefaultIgnorable OtherDefaultIgnorable
      LogicalOrderException WhiteSpace VerticalOrientation RegionalIndicator
      GraphemeBase GraphemeExtend OtherGraphemeExtend GraphemeLink
      GraphemeClusterBreak WordBreak SentenceBreak Ideographic
      UnifiedIdeograph EquivalentUnifiedIdeograph IDSBinaryOperator
      IDSTrinaryOperator IDSUnaryOperator Radical Deprecated
      VariationSelector Noncharacter Emoji EmojiPresentation EmojiModifier
      EmojiModifierBase EmojiComponent ExtendedPictographic KDefinition
      KMandarin KCantonese KJapaneseKun KJapaneseOn KKorean KVietnamese
      KTotalStrokes KSimplifiedVariant KTraditionalVariant CreatedAt
      UpdatedAt =>
    mk
      AgeProperties v NameAliases Block GeneralCategory CombiningClass
      BidiProperties DecompositionProperties NumericProperties
      JoiningProperties LineBreak EastAsianWidth CaseProperties
      ScriptProperties ISOComment HangulSyllableType JamoShortName
      IndicSyllabicCategory IndicMatraCategory IndicPositionalCategory
      IndicConjunctBreak IDStart OtherIDStart XIDStart IDContinue
      OtherIDContinue XIDContinue IDCompatMathStart IDCompatMathContinue
      PatternSyntax PatternWhiteSpace Dash Hyphen QuotationMark
      TerminalPunctuation SentenceTerminal Diacritic Extender
      PrependedConcatenationMark Alphabetic OtherAlphabetic Math OtherMath
      HexDigit ASCIIHexDigit DefaultIgnorable OtherDefaultIgnorable
      LogicalOrderException WhiteSpace VerticalOrientation RegionalIndicator
      GraphemeBase GraphemeExtend OtherGraphemeExtend GraphemeLink
      GraphemeClusterBreak WordBreak SentenceBreak Ideographic
      UnifiedIdeograph EquivalentUnifiedIdeograph IDSBinaryOperator
      IDSTrinaryOperator IDSUnaryOperator Radical Deprecated
      VariationSelector Noncharacter Emoji EmojiPresentation EmojiModifier
      EmojiModifierBase EmojiComponent ExtendedPictographic KDefinition
      KMandarin KCantonese KJapaneseKun KJapaneseOn KKorean KVietnamese
      KTotalStrokes KSimplifiedVariant KTraditionalVariant CreatedAt
      UpdatedAt
  end.

Definition set_Block (v : string) (r : t) : t :=
  match r with
  | mk
      AgeProperties NameProperties NameAliases _ GeneralCategory
      CombiningClass BidiProperties DecompositionProperties NumericProperties
      JoiningProperties LineBreak EastAsianWidth CaseProperties
      ScriptProperties ISOComment HangulSyllableType JamoShortName
      IndicSyllabicCategory IndicMatraCategory IndicPositionalCategory
      IndicConjunctBreak IDStart OtherIDStart XIDStart IDContinue
      OtherIDContinue XIDContinue IDCompatMathStart IDCompatMathContinue
      PatternSyntax PatternWhiteSpace Dash Hyphen QuotationMark
      TerminalPunctuation SentenceTerminal Diacritic Extender
      PrependedConcatenationMark Alphabetic OtherAlphabetic Math OtherMath
      HexDigit ASCIIHexDigit DefaultIgnorable OtherDefaultIgnorable
      LogicalOrderException WhiteSpace VerticalOrientation RegionalIndicator
      GraphemeBase GraphemeExtend OtherGraphemeExtend GraphemeLink
      GraphemeClusterBreak WordBreak SentenceBreak Ideographic
      UnifiedIdeograph EquivalentUnifiedIdeograph IDSBinaryOperator
      IDSTrinaryOperator IDSUnaryOperator Radical Deprecated
      VariationSelector Noncharacter Emoji EmojiPresentation EmojiModifier
      EmojiModifierBase EmojiComponent ExtendedPictographic KDefinition
      KMandarin KCantonese KJapaneseKun KJapaneseOn KKorean KVietnamese
      KTotalStrokes KSimplifiedVariant KTraditionalVariant CreatedAt
      UpdatedAt =>
    mk
      AgeProperties NameProperties NameAliases v GeneralCategory
      CombiningClass BidiProperties DecompositionProperties NumericProperties
      JoiningProperties LineBreak EastAsianWidth CaseProperties
      ScriptProperties ISOComment HangulSyllableType JamoShortName
      IndicSyllabicCategory IndicMatraCategory IndicPositionalCategory
      IndicConjunctBreak IDStart OtherIDStart XIDStart IDContinue
      OtherIDContinue XIDContinue IDCompatMathStart IDCompatMathContinue
      PatternSyntax PatternWhiteSpace Dash Hyphen QuotationMark
      TerminalPunctuation SentenceTerminal Diacritic Extender
      PrependedConcatenationMark Alphabetic OtherAlphabetic Math OtherMath
      HexDigit ASCIIHexDigit DefaultIgnorable OtherDefaultIgnorable
      LogicalOrderException WhiteSpace VerticalOrientation RegionalIndicator
      GraphemeBase GraphemeExtend OtherGraphemeExtend GraphemeLink
      GraphemeClusterBreak WordBreak SentenceBreak Ideographic
      UnifiedIdeograph EquivalentUnifiedIdeograph IDSBinaryOperator
      IDSTrinaryOperator IDSUnaryOperator Radical Deprecated
      VariationSelector Noncharacter Emoji EmojiPresentation EmojiModifier
      EmojiModifierBase EmojiComponent ExtendedPictographic KDefinition
      KMandarin KCantonese KJapaneseKun KJapaneseOn KKorean KVietnamese
      KTotalStrokes KSimplifiedVariant KTraditionalVariant CreatedAt
      UpdatedAt
  end.

Definition set_BidiProperties (v : BidiProperties.t) (r : t) : t :=
  match r with
  | mk
      AgeProperties NameProperties NameAliases Block GeneralCategory
      CombiningClass _ DecompositionProperties NumericProperties
      JoiningProperties LineBreak EastAsianWidth CaseProperties
      ScriptProperties ISOComment HangulSyllableType JamoShortName
      IndicSyllabicCategory IndicMatraCategory IndicPositionalCategory
      IndicConjunctBreak IDStart OtherIDStart XIDStart IDContinue
      OtherIDContinue XIDContinue IDCompatMathStart IDCompatMathContinue
      PatternSyntax PatternWhiteSpace Dash Hyphen QuotationMark
      TerminalPunctuation SentenceTerminal Diacritic Extender
      PrependedConcatenationMark Alphabetic OtherAlphabetic Math OtherMath
      HexDigit ASCIIHexDigit DefaultIgnorable OtherDefaultIgnorable
      LogicalOrderException WhiteSpace VerticalOrientation RegionalIndicator
      GraphemeBase GraphemeExtend OtherGraphemeExtend GraphemeLink
      GraphemeClusterBreak WordBreak SentenceBreak Ideographic
      UnifiedIdeograph EquivalentUnifiedIdeograph IDSBinaryOperator
      IDSTrinaryOperator IDSUnaryOperator Radical Deprecated
      VariationSelector Noncharacter Emoji EmojiPresentation EmojiModifier
      EmojiModifierBase EmojiComponent ExtendedPictographic KDefinition
      KMandarin KCantonese KJapaneseKun KJapaneseOn KKorean KVietnamese
      KTotalStrokes KSimplifiedVariant KTraditionalVariant CreatedAt
      UpdatedAt =>
    mk
      AgeProperties NameProperties NameAliases Block GeneralCategory
      CombiningClass v DecompositionProperties NumericProperties
      JoiningProperties LineBreak EastAsianWidth CaseProperties
      ScriptProperties ISOComment HangulSyllableType JamoShortName
      IndicSyllabicCategory IndicMatraCategory IndicPositionalCategory
      IndicConjunctBreak IDStart OtherIDStart XIDStart IDContinue
      OtherIDContinue XIDContinue IDCompatMathStart IDCompatMathContinue
      PatternSyntax PatternWhiteSpace Dash Hyphen QuotationMark
      TerminalPunctuation SentenceTerminal Diacritic Extender
      PrependedConcatenationMark Alphabetic OtherAlphabetic Math OtherMath
      HexDigit ASCIIHexDigit DefaultIgnorable OtherDefaultIgnorable
      LogicalOrderException WhiteSpace VerticalOrientation RegionalIndicator
      GraphemeBase GraphemeExtend OtherGraphemeExtend GraphemeLink
      GraphemeClusterBreak WordBreak SentenceBreak Ideographic
      UnifiedIdeograph EquivalentUnifiedIdeograph IDSBinaryOperator
      IDSTrinaryOperator IDSUnaryOperator Radical Deprecated
      VariationSelector Noncharacter Emoji EmojiPresentation EmojiModifier
      EmojiModifierBase EmojiComponent ExtendedPictographic KDefinition
      KMandarin KCantonese KJapaneseKun KJapaneseOn KKorean KVietnamese
      KTotalStrokes KSimplifiedVariant KTraditionalVariant CreatedAt
      UpdatedAt
  end.

Definition set_DecompositionProperties (v : DecompositionProperties.t) (r : t) : t :=
  match r with
  | mk
      AgeProperties NameProperties NameAliases Block GeneralCategory
      CombiningClass BidiProperties _ NumericProperties JoiningProperties
      LineBreak EastAsianWidth CaseProperties ScriptProperties ISOComment
      HangulSyllableType JamoShortName IndicSyllabicCategory
      IndicMatraCategory IndicPositionalCategory IndicConjunctBreak IDStart
      OtherIDStart XIDStart IDContinue OtherIDContinue XIDContinue
      IDCompatMathStart IDCompatMathContinue PatternSyntax PatternWhiteSpace
      Dash Hyphen QuotationMark TerminalPunctuation SentenceTerminal
      Diacritic Extender PrependedConcatenationMark Alphabetic
      OtherAlphabetic Math OtherMath HexDigit ASCIIHexDigit DefaultIgnorable
      OtherDefaultIgnorable LogicalOrderException WhiteSpace
      VerticalOrientation RegionalIndicator GraphemeBase GraphemeExtend
      OtherGraphemeExtend GraphemeLink GraphemeClusterBreak WordBreak
      SentenceBreak Ideographic UnifiedIdeograph EquivalentUnifiedIdeograph
      IDSBinaryOperator IDSTrinaryOperator IDSUnaryOperator Radical
      Deprecated VariationSelector Noncharacter Emoji EmojiPresentation
      EmojiModifier EmojiModifierBase EmojiComponent ExtendedPictographic
      KDefinition KMandarin KCantonese KJapaneseKun KJapaneseOn KKorean
      KVietnamese KTotalStrokes KSimplifiedVariant KTraditionalVariant
      CreatedAt UpdatedAt =>
    mk
      AgeProperties NameProperties NameAliases Block GeneralCategory
      CombiningClass BidiProperties v NumericProperties JoiningProperties
      LineBreak EastAsianWidth CaseProperties ScriptProperties ISOComment
      HangulSyllableType JamoShortName IndicSyllabicCategory
      IndicMatraCategory IndicPositionalCategory IndicConjunctBreak IDStart
      OtherIDStart XIDStart IDContinue OtherIDContinue XIDContinue
      IDCompatMathStart IDCompatMathContinue PatternSyntax PatternWhiteSpace
      Dash Hyphen QuotationMark TerminalPunctuation SentenceTerminal
      Diacritic Extender PrependedConcatenationMark Alphabetic
      OtherAlphabetic Math OtherMath HexDigit ASCIIHexDigit DefaultIgnorable
      OtherDefaultIgnorable LogicalOrderException WhiteSpace
      VerticalOrientation RegionalIndicator GraphemeBase GraphemeExtend
      OtherGraphemeExtend GraphemeLink GraphemeClusterBreak WordBreak
      SentenceBreak Ideographic UnifiedIdeograph EquivalentUnifiedIdeograph
      IDSBinaryOperator IDSTrinaryOperator IDSUnaryOperator Radical
      Deprecated VariationSelector Noncharacter Emoji EmojiPresentation
      EmojiModifier EmojiModifierBase EmojiComponent ExtendedPictographic
      KDefinition KMandarin KCantonese KJapaneseKun KJapaneseOn KKorean
      KVietnamese KTotalStrokes KSimplifiedVariant KTraditionalVariant
      CreatedAt UpdatedAt
  end.

Definition set_CaseProperties (v : CaseProperties.t) (r : t) : t :=
  match r with
  | mk
      AgeProperties NameProperties NameAliases Block GeneralCategory
      CombiningClass BidiProperties DecompositionProperties NumericProperties
      JoiningProperties LineBreak EastAsianWidth _ ScriptProperties
      ISOComment HangulSyllableType JamoShortName IndicSyllabicCategory
      IndicMatraCategory IndicPositionalCategory IndicConjunctBreak IDStart
      OtherIDStart XIDStart IDContinue OtherIDContinue XIDContinue
      IDCompatMathStart IDCompatMathContinue PatternSyntax PatternWhiteSpace
      Dash Hyphen QuotationMark TerminalPunctuation SentenceTerminal
      Diacritic Extender PrependedConcatenationMark Alphabetic
      OtherAlphabetic Math OtherMath HexDigit ASCIIHexDigit DefaultIgnorable
      OtherDefaultIgnorable LogicalOrderException WhiteSpace
      VerticalOrientation RegionalIndicator GraphemeBase GraphemeExtend
      OtherGraphemeExtend GraphemeLink GraphemeClusterBreak WordBreak
      SentenceBreak Ideographic UnifiedIdeograph EquivalentUnifiedIdeograph
      IDSBinaryOperator IDSTrinaryOperator IDSUnaryOperator Radical
      Deprecated VariationSelector Noncharacter Emoji EmojiPresentation
      EmojiModifier EmojiModifierBase EmojiComponent ExtendedPictographic
      KDefinition KMandarin KCantonese KJapaneseKun KJapaneseOn KKorean
      KVietnamese KTotalStrokes KSimplifiedVariant KTraditionalVariant
      CreatedAt UpdatedAt =>
    mk
      AgeProperties NameProperties NameAliases Block GeneralCategory
      CombiningClass BidiProperties DecompositionProperties NumericProperties
      JoiningProperties LineBreak EastAsianWidth v ScriptProperties
      ISOComment HangulSyllableType JamoShortName IndicSyllabicCategory
      IndicMatraCategory IndicPositionalCategory IndicConjunctBreak IDStart
      OtherIDStart XIDStart IDContinue OtherIDContinue XIDContinue
      IDCompatMathStart IDCompatMathContinue PatternSyntax PatternWhiteSpace
      Dash Hyphen QuotationMark TerminalPunctuation SentenceTerminal
      Diacritic Extender PrependedConcatenationMark Alphabetic
      OtherAlphabetic Math OtherMath HexDigit ASCIIHexDigit DefaultIgnorable
      OtherDefaultIgnorable LogicalOrderException WhiteSpace
      VerticalOrientation RegionalIndicator GraphemeBase GraphemeExtend
      OtherGraphemeExtend GraphemeLink GraphemeClusterBreak WordBreak
      SentenceBreak Ideographic UnifiedIdeograph EquivalentUnifiedIdeograph
      IDSBinaryOperator IDSTrinaryOperator IDSUnaryOperator Radical
      Deprecated VariationSelector Noncharacter Emoji EmojiPresentation
      EmojiModifier EmojiModifierBase EmojiComponent ExtendedPictographic
      KDefinition KMandarin KCantonese KJapaneseKun KJapaneseOn KKorean
      KVietnamese KTotalStrokes KSimplifiedVariant KTraditionalVariant
      CreatedAt UpdatedAt
  end.

Definition set_ScriptProperties (v : ScriptProperties.t) (r : t) : t :=
  match r with
  | mk
      AgeProperties NameProperties NameAliases Block GeneralCategory
      CombiningClass BidiProperties DecompositionProperties NumericProperties
      JoiningProperties LineBreak EastAsianWidth CaseProperties _ ISOComment
      HangulSyllableType JamoShortName IndicSyllabicCategory
      IndicMatraCategory IndicPositionalCategory IndicConjunctBreak IDStart
      OtherIDStart XIDStart IDContinue OtherIDContinue XIDContinue
      IDCompatMathStart IDCompatMathContinue PatternSyntax PatternWhiteSpace
      Dash Hyphen QuotationMark TerminalPunctuation SentenceTerminal
      Diacritic Extender PrependedConcatenationMark Alphabetic
      OtherAlphabetic Math OtherMath HexDigit ASCIIHexDigit DefaultIgnorable
      OtherDefaultIgnorable LogicalOrderException WhiteSpace
      VerticalOrientation RegionalIndicator GraphemeBase GraphemeExtend
      OtherGraphemeExtend GraphemeLink GraphemeClusterBreak WordBreak
      SentenceBreak Ideographic UnifiedIdeograph EquivalentUnifiedIdeograph
      IDSBinaryOperator IDSTrinaryOperator IDSUnaryOperator Radical
      Deprecated VariationSelector Noncharacter Emoji EmojiPresentation
      EmojiModifier EmojiModifierBase EmojiComponent ExtendedPictographic
      KDefinition KMandarin KCantonese KJapaneseKun KJapaneseOn KKorean
      KVietnamese KTotalStrokes KSimplifiedVariant KTraditionalVariant
      CreatedAt UpdatedAt =>
    mk
      AgeProperties NameProperties NameAliases Block GeneralCategory
      CombiningClass BidiProperties DecompositionProperties NumericProperties
      JoiningProperties LineBreak EastAsianWidth CaseProperties v ISOComment
      HangulSyllableType JamoShortName IndicSyllabicCategory
      IndicMatraCategory IndicPositionalCategory IndicConjunctBreak IDStart
      OtherIDStart XIDStart IDContinue OtherIDContinue XIDContinue
      IDCompatMathStart IDCompatMathContinue PatternSyntax PatternWhiteSpace
      Dash Hyphen QuotationMark TerminalPunctuation SentenceTerminal
      Diacritic Extender PrependedConcatenationMark Alphabetic
      OtherAlphabetic Math OtherMath HexDigit ASCIIHexDigit DefaultIgnorable
      OtherDefaultIgnorable LogicalOrderException WhiteSpace
      VerticalOrientation RegionalIndicator GraphemeBase GraphemeExtend
      OtherGraphemeExtend GraphemeLink GraphemeClusterBreak WordBreak
      SentenceBreak Ideographic UnifiedIdeograph EquivalentUnifiedIdeograph
      IDSBinaryOperator IDSTrinaryOperator IDSUnaryOperator Radical
      Deprecated VariationSelector Noncharacter Emoji EmojiPresentation
      EmojiModifier EmojiModifierBase EmojiComponent ExtendedPictographic
      KDefinition KMandarin KCantonese KJapaneseKun KJapaneseOn KKorean
      KVietnamese KTotalStrokes KSimplifiedVariant KTraditionalVariant
      CreatedAt UpdatedAt
  end.

Definition set_Deprecated (v : UCDBool) (r : t) : t :=
  match r with
  | mk
      AgeProperties NameProperties NameAliases Block GeneralCategory
      CombiningClass BidiProperties DecompositionProperties NumericProperties
      JoiningProperties LineBreak EastAsianWidth CaseProperties
      ScriptProperties ISOComment HangulSyllableType JamoShortName
      IndicSyllabicCategory IndicMatraCategory IndicPositionalCategory
      IndicConjunctBreak IDStart OtherIDStart XIDStart IDContinue
      OtherIDContinue XIDContinue IDCompatMathStart IDCompatMathContinue
      PatternSyntax PatternWhiteSpace Dash Hyphen QuotationMark
      TerminalPunctuation SentenceTerminal Diacritic Extender
      PrependedConcatenationMark Alphabetic OtherAlphabetic Math OtherMath
      HexDigit ASCIIHexDigit DefaultIgnorable OtherDefaultIgnorable
      LogicalOrderException WhiteSpace VerticalOrientation RegionalIndicator
      GraphemeBase GraphemeExtend OtherGraphemeExtend GraphemeLink
      GraphemeClusterBreak WordBreak SentenceBreak Ideographic
      UnifiedIdeograph EquivalentUnifiedIdeograph IDSBinaryOperator
      IDSTrinaryOperator IDSUnaryOperator Radical _ VariationSelector
      Noncharacter Emoji EmojiPresentation EmojiModifier EmojiModifierBase
      EmojiComponent ExtendedPictographic KDefinition KMandarin KCantonese
      KJapaneseKun KJapaneseOn KKorean KVietnamese KTotalStrokes
      KSimplifiedVariant KTraditionalVariant CreatedAt UpdatedAt =>
    mk
      AgeProperties NameProperties NameAliases Block GeneralCategory
      CombiningClass BidiProperties DecompositionProperties NumericProperties
      JoiningProperties LineBreak EastAsianWidth CaseProperties
      ScriptProperties ISOComment HangulSyllableType JamoShortName
      IndicSyllabicCategory IndicMatraCategory IndicPositionalCategory
      IndicConjunctBreak IDStart OtherIDStart XIDStart IDContinue
      OtherIDContinue XIDContinue IDCompatMathStart IDCompatMathContinue
      PatternSyntax PatternWhiteSpace Dash Hyphen QuotationMark
      TerminalPunctuation SentenceTerminal Diacritic Extender
      PrependedConcatenationMark Alphabetic OtherAlphabetic Math OtherMath
      HexDigit ASCIIHexDigit DefaultIgnorable OtherDefaultIgnorable
      LogicalOrderException WhiteSpace VerticalOrientation RegionalIndicator
      GraphemeBase GraphemeExtend OtherGraphemeExtend GraphemeLink
      GraphemeClusterBreak WordBreak SentenceBreak Ideographic
      UnifiedIdeograph EquivalentUnifiedIdeograph IDSBinaryOperator
      IDSTrinaryOperator IDSUnaryOperator Radical v VariationSelector
      Noncharacter Emoji EmojiPresentation EmojiModifier EmojiModifierBase
      EmojiComponent ExtendedPictographic KDefinition KMandarin KCantonese
      KJapaneseKun KJapaneseOn KKorean KVietnamese KTotalStrokes
      KSimplifiedVariant KTraditionalVariant CreatedAt UpdatedAt
  end.

Definition set_Noncharacter (v : UCDBool) (r : t) : t :=
  match r with
  | mk
      AgeProperties NameProperties NameAliases Block GeneralCategory
      CombiningClass BidiProperties DecompositionProperties NumericProperties
      JoiningProperties LineBreak EastAsianWidth CaseProperties
      ScriptProperties ISOComment HangulSyllableType JamoShortName
      IndicSyllabicCategory IndicMatraCategory IndicPositionalCategory
      IndicConjunctBreak IDStart OtherIDStart XIDStart IDContinue
      OtherIDContinue XIDContinue IDCompatMathStart IDCompatMathContinue
      PatternSyntax PatternWhiteSpace Dash Hyphen QuotationMark
      TerminalPunctuation SentenceTerminal Diacritic Extender
      PrependedConcatenationMark Alphabetic OtherAlphabetic Math OtherMath
      HexDigit ASCIIHexDigit DefaultIgnorable OtherDefaultIgnorable
      LogicalOrderException WhiteSpace VerticalOrientation RegionalIndicator
      GraphemeBase GraphemeExtend OtherGraphemeExtend GraphemeLink
      GraphemeClusterBreak WordBreak SentenceBreak Ideographic
      UnifiedIdeograph EquivalentUnifiedIdeograph IDSBinaryOperator
      IDSTrinaryOperator IDSUnaryOperator Radical Deprecated
      VariationSelector _ Emoji EmojiPresentation EmojiModifier
      EmojiModifierBase EmojiComponent ExtendedPictographic KDefinition
      KMandarin KCantonese KJapaneseKun KJapaneseOn KKorean KVietnamese
      KTotalStrokes KSimplifiedVariant KTraditionalVariant CreatedAt
      UpdatedAt =>
    mk
      AgeProperties NameProperties NameAliases Block GeneralCategory
      CombiningClass BidiProperties DecompositionProperties NumericProperties
      JoiningProperties LineBreak EastAsianWidth CaseProperties
      ScriptProperties ISOComment HangulSyllableType JamoShortName
      IndicSyllabicCategory IndicMatraCategory IndicPositionalCategory
      IndicConjunctBreak IDStart OtherIDStart XIDStart IDContinue
      OtherIDContinue XIDContinue IDCompatMathStart IDCompatMathContinue
      PatternSyntax PatternWhiteSpace Dash Hyphen QuotationMark
      TerminalPunctuation SentenceTerminal Diacritic Extender
      PrependedConcatenationMark Alphabetic OtherAlphabetic Math OtherMath
      HexDigit ASCIIHexDigit DefaultIgnorable OtherDefaultIgnorable
      LogicalOrderException WhiteSpace VerticalOrientation RegionalIndicator
      GraphemeBase GraphemeExtend OtherGraphemeExtend GraphemeLink
      GraphemeClusterBreak WordBreak SentenceBreak Ideographic
      UnifiedIdeograph EquivalentUnifiedIdeograph IDSBinaryOperator
      IDSTrinaryOperator IDSUnaryOperator Radical Deprecated
      VariationSelector v Emoji EmojiPresentation EmojiModifier
      EmojiModifierBase EmojiComponent ExtendedPictographic KDefinition
      KMandarin KCantonese KJapaneseKun KJapaneseOn KKorean KVietnamese
      KTotalStrokes KSimplifiedVariant KTraditionalVariant CreatedAt
      UpdatedAt
  end.

Definition set_CreatedAt (v : Time) (r : t) : t :=
  match r with
  | mk
      AgeProperties NameProperties NameAliases Block GeneralCategory
      CombiningClass BidiProperties DecompositionProperties NumericProperties
      JoiningProperties LineBreak EastAsianWidth CaseProperties
      ScriptProperties ISOComment HangulSyllableType JamoShortName
      IndicSyllabicCategory IndicMatraCategory IndicPositionalCategory
      IndicConjunctBreak IDStart OtherIDStart XIDStart IDContinue
      OtherIDContinue XIDContinue IDCompatMathStart IDCompatMathContinue
      PatternSyntax PatternWhiteSpace Dash Hyphen QuotationMark
      TerminalPunctuation SentenceTerminal Diacritic Extender
      PrependedConcatenationMark Alphabetic OtherAlphabetic Math OtherMath
      HexDigit ASCIIHexDigit DefaultIgnorable OtherDefaultIgnorable
      LogicalOrderException WhiteSpace VerticalOrientation RegionalIndicator
      GraphemeBase GraphemeExtend OtherGraphemeExtend GraphemeLink
      GraphemeClusterBreak WordBreak SentenceBreak Ideographic
      UnifiedIdeograph EquivalentUnifiedIdeograph IDSBinaryOperator
      IDSTrinaryOperator IDSUnaryOperator Radical Deprecated
      VariationSelector Noncharacter Emoji EmojiPresentation EmojiModifier
      EmojiModifierBase EmojiComponent ExtendedPictographic KDefinition
      KMandarin KCantonese KJapaneseKun KJapaneseOn KKorean KVietnamese
      KTotalStrokes KSimplifiedVariant KTraditionalVariant _ UpdatedAt =>
    mk
      AgeProperties NameProperties NameAliases Block GeneralCategory
      CombiningClass BidiProperties DecompositionProperties NumericProperties
      JoiningProperties LineBreak EastAsianWidth CaseProperties
      ScriptProperties ISOComment HangulSyllableType JamoShortName
      IndicSyllabicCategory IndicMatraCategory IndicPositionalCategory
      IndicConjunctBreak IDStart OtherIDStart XIDStart IDContinue
      OtherIDContinue XIDContinue IDCompatMathStart IDCompatMathContinue
      PatternSyntax PatternWhiteSpace Dash Hyphen QuotationMark
      TerminalPunctuation SentenceTerminal Diacritic Extender
      PrependedConcatenationMark Alphabetic OtherAlphabetic Math OtherMath
      HexDigit ASCIIHexDigit DefaultIgnorable OtherDefaultIgnorable
      LogicalOrderException WhiteSpace VerticalOrientation RegionalIndicator
      GraphemeBase GraphemeExtend OtherGraphemeExtend GraphemeLink
      GraphemeClusterBreak WordBreak SentenceBreak Ideographic
      UnifiedIdeograph EquivalentUnifiedIdeograph IDSBinaryOperator
      IDSTrinaryOperator IDSUnaryOperator Radical Deprecated
      VariationSelector Noncharacter Emoji EmojiPresentation EmojiModifier
      EmojiModifierBase EmojiComponent ExtendedPictographic KDefinition
      KMandarin KCantonese KJapaneseKun KJapaneseOn KKorean KVietnamese
      KTotalStrokes KSimplifiedVariant KTraditionalVariant v UpdatedAt
  end.

Definition set_UpdatedAt (v : Time) (r : t) : t :=
  match r with
  | mk
      AgeProperties NameProperties NameAliases Block GeneralCategory
      CombiningClass BidiProperties DecompositionProperties NumericProperties
      JoiningProperties LineBreak EastAsianWidth CaseProperties
      ScriptProperties ISOComment HangulSyllableType JamoShortName
      IndicSyllabicCategory IndicMatraCategory IndicPositionalCategory
      IndicConjunctBreak IDStart OtherIDStart XIDStart IDContinue
      OtherIDContinue XIDContinue IDCompatMathStart IDCompatMathContinue
      PatternSyntax PatternWhiteSpace Dash Hyphen QuotationMark
      TerminalPunctuation SentenceTerminal Diacritic Extender
      PrependedConcatenationMark Alphabetic OtherAlphabetic Math OtherMath
      HexDigit ASCIIHexDigit DefaultIgnorable OtherDefaultIgnorable
      LogicalOrderException WhiteSpace VerticalOrientation RegionalIndicator
      GraphemeBase GraphemeExtend OtherGraphemeExtend GraphemeLink
      GraphemeClusterBreak WordBreak SentenceBreak Ideographic
      UnifiedIdeograph EquivalentUnifiedIdeograph IDSBinaryOperator
      IDSTrinaryOperator IDSUnaryOperator Radical Deprecated
      VariationSelector Noncharacter Emoji EmojiPresentation EmojiModifier
      EmojiModifierBase EmojiComponent ExtendedPictographic KDefinition
      KMandarin KCantonese KJapaneseKun KJapaneseOn KKorean KVietnamese
      KTotalStrokes KSimplifiedVariant KTraditionalVariant CreatedAt _ =>
    mk
      AgeProperties NameProperties NameAliases Block GeneralCategory
      CombiningClass BidiProperties DecompositionProperties NumericProperties
      JoiningProperties LineBreak EastAsianWidth CaseProperties
      ScriptProperties ISOComment HangulSyllableType JamoShortName
      IndicSyllabicCategory IndicMatraCategory IndicPositionalCategory
      IndicConjunctBreak IDStart OtherIDStart XIDStart IDContinue
      OtherIDContinue XIDContinue IDCompatMathStart IDCompatMathContinue
      PatternSyntax PatternWhiteSpace Dash Hyphen QuotationMark
      TerminalPunctuation SentenceTerminal Diacritic Extender
      PrependedConcatenationMark Alphabetic OtherAlphabetic Math OtherMath
      HexDigit ASCIIHexDigit DefaultIgnorable OtherDefaultIgnorable
      LogicalOrderException WhiteSpace VerticalOrientation RegionalIndicator
      GraphemeBase GraphemeExtend OtherGraphemeExtend GraphemeLink
      GraphemeClusterBreak WordBreak SentenceBreak Ideographic
      UnifiedIdeograph EquivalentUnifiedIdeograph IDSBinaryOperator
      IDSTrinaryOperator IDSUnaryOperator Radical Deprecated
      VariationSelector Noncharacter Emoji EmojiPresentation EmojiModifier
      EmojiModifierBase EmojiComponent ExtendedPictographic KDefinition
      KMandarin KCantonese KJapaneseKun KJapaneseOn KKorean KVietnamese
      KTotalStrokes KSimplifiedVariant KTraditionalVariant CreatedAt v
  end.

End CodePointProperties.

Module CodePoint.

Record t : Type := mk {
  ID : ObjectID;
  CP : string;
  FirstCP : string;
  LastCP : string;
  CodePointProperties : CodePointProperties.t
}.

(* The Go zero value of the struct. *)
Definition zero : t :=
  mk
    0%N EmptyString EmptyString EmptyString CodePointProperties.zero.

Definition set_ID (v : ObjectID) (r : t) : t :=
  match r with
  | mk _ CP FirstCP LastCP CodePointProperties => mk v CP FirstCP LastCP CodePointProperties
  end.

Definition set_CodePointProperties (v : CodePointProperties.t) (r : t) : t :=
  match r with
  | mk ID CP FirstCP LastCP _ => mk ID CP FirstCP LastCP v
  end.

(* Fields of the embedded structs are promoted, as in Go: [cp.Name] is
   [cp.CodePointProperties.NameProperties.Name]. *)

Definition Name (cp : t) : string :=
  NameProperties.Name (CodePointProperties.NameProperties (CodePointProperties cp)).

Definition set_Name (v : string) (cp : t) : t :=
  set_CodePointProperties
    (CodePointProperties.set_NameProperties
       (NameProperties.set_Name v
          (CodePointProperties.NameProperties (CodePointProperties cp)))
       (CodePointProperties cp)) cp.

Definition Name1 (cp : t) : string :=
  NameProperties.Name1 (CodePointProperties.NameProperties (CodePointProperties cp)).

Definition set_Name1 (v : string) (cp : t) : t :=
  set_CodePointProperties
    (CodePointProperties.set_NameProperties
       (NameProperties.set_Name1 v
          (CodePointProperties.NameProperties (CodePointProperties cp)))
       (CodePointProperties cp)) cp.

Definition Block (cp : t) : string :=
  CodePointProperties.Block (CodePointProperties cp).

Definition set_Block (v : string) (cp : t) : t :=
  set_CodePointProperties
    (CodePointProperties.set_Block v (CodePointProperties cp)) cp.

Definition Script (cp : t) : string :=
  ScriptProperties.Script (CodePointProperties.ScriptProperties (CodePointProperties cp)).

Definition set_Script (v : string) (cp : t) : t :=
  set_CodePointProperties
    (CodePointProperties.set_ScriptProperties
       (ScriptProperties.set_Script v
          (CodePointProperties.ScriptProperties (CodePointProperties cp)))
       (CodePointProperties cp)) cp.

Definition BidiMirroringGlyph (cp : t) : string :=
  BidiProperties.BidiMirroringGlyph (CodePointProperties.BidiProperties (CodePointProperties cp)).

Definition set_BidiMirroringGlyph (v : string) (cp : t) : t :=
  set_CodePointProperties
    (CodePointProperties.set_BidiProperties
       (BidiProperties.set_BidiMirroringGlyph v
          (CodePointProperties.BidiProperties (CodePointProperties cp)))
       (CodePointProperties cp)) cp.

Definition DecompositionMapping (cp : t) : string :=
  DecompositionProperties.DecompositionMapping (CodePointProperties.DecompositionProperties (CodePointProperties cp)).

Definition set_DecompositionMapping (v : string) (cp : t) : t :=
  set_CodePointProperties
    (CodePointProperties.set_DecompositionProperties
       (DecompositionProperties.set_DecompositionMapping v
          (CodePointProperties.DecompositionProperties (CodePointProperties cp)))
       (CodePointProperties cp)) cp.

Definition SimpleUppercase (cp : t) : string :=
  CaseProperties.SimpleUppercase (CodePointProperties.CaseProperties (CodePointProperties cp)).

Definition set_SimpleUppercase (v : string) (cp : t) : t :=
  set_CodePointProperties
    (CodePointProperties.set_CaseProperties
       (CaseProperties.set_SimpleUppercase v
          (CodePointProperties.CaseProperties (CodePointProperties cp)))
       (CodePointProperties cp)) cp.

Definition SimpleLowercase (cp : t) : string :=
  CaseProperties.SimpleLowercase (CodePointProperties.CaseProperties (CodePointProperties cp)).

Definition set_SimpleLowercase (v : string) (cp : t) : t :=
  set_CodePointProperties
    (CodePointProperties.set_CaseProperties
       (CaseProperties.set_SimpleLowercase v
          (CodePointProperties.CaseProperties (CodePointProperties cp)))
       (CodePointProperties cp)) cp.

Definition SimpleTitlecase (cp : t) : string :=
  CaseProperties.SimpleTitlecase (CodePointProperties.CaseProperties (CodePointProperties cp)).

Definition set_SimpleTitlecase (v : string) (cp : t) : t :=
  set_CodePointProperties
    (CodePointProperties.set_CaseProperties
       (CaseProperties.set_SimpleTitlecase v
          (CodePointProperties.CaseProperties (CodePointProperties cp)))
       (CodePointProperties cp)) cp.

Definition UppercaseMapping (cp : t) : string :=
  CaseProperties.UppercaseMapping (CodePointProperties.CaseProperties (CodePointProperties cp)).

Definition set_UppercaseMapping (v : string) (cp : t) : t :=
  set_CodePointProperties
    (CodePointProperties.set_CaseProperties
       (CaseProperties.set_UppercaseMapping v
          (CodePointProperties.CaseProperties (CodePointProperties cp)))
       (CodePointProperties cp)) cp.

Definition LowercaseMapping (cp : t) : string :=
  CaseProperties.LowercaseMapping (CodePointProperties.CaseProperties (CodePointProperties cp)).

Definition set_LowercaseMapping (v : string) (cp : t) : t :=
  set_CodePointProperties
    (CodePointProperties.set_CaseProperties
       (CaseProperties.set_LowercaseMapping v
          (CodePointProperties.CaseProperties (CodePointProperties cp)))
       (CodePointProperties cp)) cp.

Definition TitlecaseMapping (cp : t) : string :=
  CaseProperties.TitlecaseMapping (CodePointProperties.CaseProperties (CodePointProperties cp)).

Definition set_TitlecaseMapping (v : string) (cp : t) : t :=
  set_CodePointProperties
    (CodePointProperties.set_CaseProperties
       (CaseProperties.set_TitlecaseMapping v
          (CodePointProperties.CaseProperties (CodePointProperties cp)))
       (CodePointProperties cp)) cp.

Definition SimpleCaseFolding (cp : t) : string :=
  CaseProperties.SimpleCaseFolding (CodePointProperties.CaseProperties (CodePointProperties cp)).

Definition set_SimpleCaseFolding (v : string) (cp : t) : t :=
  set_CodePointProperties
    (CodePointProperties.set_CaseProperties
       (CaseProperties.set_SimpleCaseFolding v
          (CodePointProperties.CaseProperties (CodePointProperties cp)))
       (CodePointProperties cp)) cp.

Definition CaseFolding (cp : t) : string :=
  CaseProperties.CaseFolding (CodePointProperties.CaseProperties (CodePointProperties cp)).

Definition set_CaseFolding (v : string) (cp : t) : t :=
  set_CodePointProperties
    (CodePointProperties.set_CaseProperties
       (CaseProperties.set_CaseFolding v
          (CodePointProperties.CaseProperties (CodePointProperties cp)))
       (CodePointProperties cp)) cp.

Definition Deprecated (cp : t) : UCDBool :=
  CodePointProperties.Deprecated (CodePointProperties cp).

Definition set_Deprecated (v : UCDBool) (cp : t) : t :=
  set_CodePointProperties
    (CodePointProperties.set_Deprecated v (CodePointProperties cp)) cp.

Definition Noncharacter (cp : t) : UCDBool :=
  CodePointProperties.Noncharacter (CodePointProperties cp).

Definition set_Noncharacter (v : UCDBool) (cp : t) : t :=
  set_CodePointProperties
    (CodePointProperties.set_Noncharacter v (CodePointProperties cp)) cp.

Definition CreatedAt (cp : t) : Time :=
  CodePointProperties.CreatedAt (CodePointProperties cp).

Definition set_CreatedAt (v : Time) (cp : t) : t :=
  set_CodePointProperties
    (CodePointProperties.set_CreatedAt v (CodePointProperties cp)) cp.

Definition UpdatedAt (cp : t) : Time :=
  CodePointProperties.UpdatedAt (CodePointProperties cp).

Definition set_UpdatedAt (v : Time) (cp : t) : t :=
  set_CodePointProperties
    (CodePointProperties.set_UpdatedAt v (CodePointProperties cp)) cp.

End CodePoint.

Module Repertoire.

Record t : Type := mk {
  Reserved : list CodePoint.t;
  Noncharacter : list CodePoint.t;
  Surrogate : list CodePoint.t;
  CodePoints : list CodePoint.t
}.

(* The Go zero value of the struct. *)
Definition zero : t :=
  mk
    nil nil nil nil.

End Repertoire.

(** ** [model/models.go] *)

Module Block.

Record t : Type := mk {
  ID : ObjectID;
  FirstCP : string;
  LastCP : string;
  Name : string;
  CreatedAt : Time;
  UpdatedAt : Time
}.

Definition zero : t := mk 0%N "" "" "" 0%Z 0%Z.

Definition set_ID (v : ObjectID) (r : t) : t :=
  match r with
  | mk _ FirstCP LastCP Name CreatedAt UpdatedAt =>
    mk v FirstCP LastCP Name CreatedAt UpdatedAt
  end.

Definition set_CreatedAt (v : Time) (r : t) : t :=
  match r with
  | mk ID FirstCP LastCP Name _ UpdatedAt =>
    mk ID FirstCP LastCP Name v UpdatedAt
  end.

Definition set_UpdatedAt (v : Time) (r : t) : t :=
  match r with
  | mk ID FirstCP LastCP Name CreatedAt _ =>
    mk ID FirstCP LastCP Name CreatedAt v
  end.

End Block.

Module Blocks.

Record t : Type := mk {
  Blocks : list Block.t
}.

End Blocks.

Module UCD.

Record t : Type := mk {
  ID : ObjectID;
  Xmlns : string;
  Description : string;
  Repertoire : option Repertoire.t;
  Blocks : option Blocks.t;
  CreatedAt : Time;
  UpdatedAt : Time;
  Version : string
}.

Definition zero : t := mk 0%N "" "" None None 0%Z 0%Z "".

Definition set_Version (v : string) (r : t) : t :=
  match r with
  | mk ID Xmlns Description Repertoire Blocks CreatedAt UpdatedAt _ =>
    mk ID Xmlns Description Repertoire Blocks CreatedAt UpdatedAt v
  end.

End UCD.

(** ** Errors *)

(** The error values the program handles.  [ErrNoDocuments] is the driver's
    sentinel [mongo.ErrNoDocuments], compared by identity in the source;
    [DriverError] is any other error a driver call returns; [Errorf] is the
    value built by [fmt.Errorf] from a format without [%w], [ErrorfW] the one
    built from a format ending in [%w]: the formatted message and the wrapped
    cause. *)
Inductive error : Type :=
| ErrNoDocuments : error
| DriverError (msg : string) : error
| Errorf (msg : string) : error
| ErrorfW (msg : string) (cause : error) : error.

(** [err.Error()]. *)
Definition Error (e : error) : string :=
  match e with
  | ErrNoDocuments => "mongo: no documents in result"
  | DriverError msg => msg
  | Errorf msg => msg
  | ErrorfW msg _ => msg
  end.

(** The decision behind [err == mongo.ErrNoDocuments]. *)
Definition isErrNoDocuments (e : error) : bool :=
  match e with
  | ErrNoDocuments => true
  | _ => false
  end.

(** [%d] applied to a non-negative [int]. *)
Definition itoa (n : nat) : string := NilEmpty.string_of_uint (Nat.to_uint n).

(** ** [model/parser.go] *)

(** Console output ([fmt.Printf], [fmt.Println]) is not part of the model. *)

Module Parser.

(** [append(s, x)] on slices read as lists. *)
Definition append1 {A : Type} (s : list A) (x : A) : list A := s ++ [x].

Definition getCodePointsFromRepertoire
    (repertoire : option Repertoire.t) : list CodePoint.t :=
  match repertoire with
  | None => []
  | Some repertoire =>
    let allCodePoints : list CodePoint.t := [] in
    let allCodePoints := allCodePoints ++ Repertoire.CodePoints repertoire in
    let allCodePoints :=
      fold_left
        (fun allCodePoints cp =>
           let cp := CodePoint.set_Deprecated true cp in
           append1 allCodePoints cp)
        (Repertoire.Reserved repertoire) allCodePoints in
    let allCodePoints :=
      fold_left
        (fun allCodePoints cp =>
           let cp := CodePoint.set_Noncharacter true cp in
           append1 allCodePoints cp)
        (Repertoire.Noncharacter repertoire) allCodePoints in
    let allCodePoints := allCodePoints ++ Repertoire.Surrogate repertoire in
    allCodePoints
  end.

Definition ExtractAllCodePoints (ucd : UCD.t) : list CodePoint.t :=
  let allCodePoints : list CodePoint.t := [] in
  let allCodePoints :=
    match UCD.Repertoire ucd with
    | Some r => allCodePoints ++ getCodePointsFromRepertoire (Some r)
    | None => allCodePoints
    end in
  allCodePoints.

Definition ExtractBlocks (ucd : UCD.t) : list Block.t :=
  match UCD.Blocks ucd with
  | None => []
  | Some blocks => Blocks.Blocks blocks
  end.

Definition ValidateCodePoint (cp : CodePoint.t) : option error :=
  if (CodePoint.CP cp =? "") && (CodePoint.FirstCP cp =? "") then
    Some (Errorf "code point must have either cp or first-cp")
  else if negb (CodePoint.FirstCP cp =? "") && (CodePoint.LastCP cp =? "") then
    Some (Errorf "code point with first-cp must also have last-cp")
  else
    None.

Section Normalization.

(** [strings.TrimSpace] belongs to the Go standard library, not to this
    program; the pipeline is defined over any function standing for it. *)
Variable TrimSpace : string -> string.

(** The statements of [NormalizeCodePoint], one per line of the source. *)
Definition NormalizeCodePoint (cp : CodePoint.t) : CodePoint.t :=
  let cp := CodePoint.set_Name (TrimSpace (CodePoint.Name cp)) cp in
  let cp := CodePoint.set_Name1 (TrimSpace (CodePoint.Name1 cp)) cp in
  let cp := CodePoint.set_Block (TrimSpace (CodePoint.Block cp)) cp in
  let cp := CodePoint.set_Script (TrimSpace (CodePoint.Script cp)) cp in
  let cp := if CodePoint.BidiMirroringGlyph cp =? "#"
            then CodePoint.set_BidiMirroringGlyph "" cp else cp in
  let cp := if CodePoint.DecompositionMapping cp =? "#"
            then CodePoint.set_DecompositionMapping "" cp else cp in
  let cp := if CodePoint.SimpleUppercase cp =? "#"
            then CodePoint.set_SimpleUppercase "" cp else cp in
  let cp := if CodePoint.SimpleLowercase cp =? "#"
            then CodePoint.set_SimpleLowercase "" cp else cp in
  let cp := if CodePoint.SimpleTitlecase cp =? "#"
            then CodePoint.set_SimpleTitlecase "" cp else cp in
  let cp := if CodePoint.UppercaseMapping cp =? "#"
            then CodePoint.set_UppercaseMapping "" cp else cp in
  let cp := if CodePoint.LowercaseMapping cp =? "#"
            then CodePoint.set_LowercaseMapping "" cp else cp in
  let cp := if CodePoint.TitlecaseMapping cp =? "#"
            then CodePoint.set_TitlecaseMapping "" cp else cp in
  let cp := if CodePoint.SimpleCaseFolding cp =? "#"
            then CodePoint.set_SimpleCaseFolding "" cp else cp in
  let cp := if CodePoint.CaseFolding cp =? "#"
            then CodePoint.set_CaseFolding "" cp else cp in
  cp.

(** The loop of [ProcessUCDForMongoDB] visits [codePoints] by index; a
    rejected element is skipped ([continue]), an accepted one is normalized
    in place and its value appended to [validCodePoints].  [codePoints] is
    local to the call, so the in-place update is not visible elsewhere. *)
Definition ProcessUCDForMongoDB (ucd : UCD.t)
    : list CodePoint.t * list Block.t * option error :=
  let codePoints := ExtractAllCodePoints ucd in
  let validCodePoints :=
    fold_left
      (fun validCodePoints cp =>
         match ValidateCodePoint cp with
         | Some _ => validCodePoints
         | None =>
           let cp := NormalizeCodePoint cp in
           append1 validCodePoints cp
         end)
      codePoints [] in
  let blocks := ExtractBlocks ucd in
  (validCodePoints, blocks, None).

End Normalization.

End Parser.

(** ** A concrete [TrimSpace]

    The ASCII path of [strings.TrimSpace]: leading and trailing bytes among
    tab, line feed, vertical tab, form feed, carriage return and space are
    removed.  It instantiates the [TrimSpace] parameter wherever a concrete
    run of the pipeline is computed. *)

Module Strings.

Definition asciiSpace (c : ascii) : bool :=
  match nat_of_ascii c with
  | 9 | 10 | 11 | 12 | 13 | 32 => true
  | _ => false
  end.

Fixpoint trimLeft (s : string) : string :=
  match s with
  | EmptyString => EmptyString
  | String c rest => if asciiSpace c then trimLeft rest else s
  end.

Fixpoint trimRight (s : string) : string :=
  match s with
  | EmptyString => EmptyString
  | String c rest =>
    match trimRight rest with
    | EmptyString => if asciiSpace c then EmptyString else String c EmptyString
    | rest' => String c rest'
    end
  end.

Definition TrimSpace (s : string) : string := trimRight (trimLeft s).

End Strings.

(** ** The document store and its environment

    [database/mongo.go] talks to a MongoDB server through the Go driver.
    Neither is part of the program; this section fixes what the model takes
    a driver call to do.  A collection is its documents in insertion order
    and its index definitions; a call either succeeds with its documented
    effect or fails with an error chosen by the environment.  Every failure
    is the environment's choice, also one a server would derive from its
    state (a duplicate key under a unique index) or from time (a deadline). *)

Module Mongo.

(** [mongo.IndexModel], with the two options the program sets. *)
Record IndexModel : Type := mkIndex {
  Keys : list (string * Z);
  Sparse : bool;
  Unique : bool
}.

Definition key_eqb (a b : string * Z) : bool :=
  (fst a =? fst b)%string && (snd a =? snd b)%Z.

Fixpoint keys_eqb (a b : list (string * Z)) : bool :=
  match a, b with
  | [], [] => true
  | x :: a', y :: b' => key_eqb x y && keys_eqb a' b'
  | _, _ => false
  end.

Definition index_eqb (a b : IndexModel) : bool :=
  keys_eqb (Keys a) (Keys b) && Bool.eqb (Sparse a) (Sparse b)
  && Bool.eqb (Unique a) (Unique b).

(** A collection of documents of type [A]: either the namespace does not
    exist at the server, or it holds documents, in insertion order, and index
    definitions (those besides the default index on [_id]). *)
Inductive Collection (A : Type) : Type :=
| Absent : Collection A
| Present (documents : list A) (indexModels : list IndexModel) : Collection A.
Arguments Absent {A}.
Arguments Present {A}.

Definition docs {A : Type} (c : Collection A) : list A :=
  match c with
  | Absent => []
  | Present documents _ => documents
  end.

Definition indexes {A : Type} (c : Collection A) : list IndexModel :=
  match c with
  | Absent => []
  | Present _ indexModels => indexModels
  end.

(** A failing driver call: the error it returns and how much of its effect
    had taken place (documents written by an insert, documents removed by a
    delete) when it failed. *)
Record Fault : Type := mkFault {
  fault_err : error;
  fault_partial : nat
}.

(** The driver calls that reach the server, as recorded in the trace. *)
Inductive Call : Type :=
| CallDrop (coll : string)
| CallInsertOne (coll : string)
| CallDeleteMany (coll : string)
| CallInsertMany (coll : string) (ndocs : nat)
| CallDropAllIndexes (coll : string)
| CallCreateIndexes (coll : string) (nindexes : nat)
| CallFindOne (coll : string).

(** The state a run works on: the three collections of [MongoClient]
    ([ucd], [CodePoints], [blocks]), the clock behind [time.Now], the last
    identity handed out by [primitive.NewObjectID], the outcomes the
    environment has in store for the coming driver calls ([None], or no
    entry left: the call succeeds), and the calls made so far. *)
Record World : Type := mkWorld {
  ucd : Collection UCD.t;
  CodePoints : Collection CodePoint.t;
  blocks : Collection Block.t;
  clock : Time;
  lastID : ObjectID;
  faults : list (option Fault);
  calls : list Call
}.

Definition set_ucd (c : Collection UCD.t) (w : World) : World :=
  mkWorld c (CodePoints w) (blocks w) (clock w) (lastID w) (faults w) (calls w).

Definition set_CodePoints (c : Collection CodePoint.t) (w : World) : World :=
  mkWorld (ucd w) c (blocks w) (clock w) (lastID w) (faults w) (calls w).

Definition set_blocks (c : Collection Block.t) (w : World) : World :=
  mkWorld (ucd w) (CodePoints w) c (clock w) (lastID w) (faults w) (calls w).

(** A [*mongo.Collection] handle: the collection's name and where it lives
    in the world. *)
Record Handle (A : Type) : Type := mkHandle {
  name : string;
  get : World -> Collection A;
  put : Collection A -> World -> World
}.
Arguments mkHandle {A}.
Arguments name {A}.
Arguments get {A}.
Arguments put {A}.

Definition ucdH : Handle UCD.t := mkHandle "ucd" ucd set_ucd.
Definition CodePointsH : Handle CodePoint.t :=
  mkHandle "code_points" CodePoints set_CodePoints.
Definition blocksH : Handle Block.t := mkHandle "blocks" blocks set_blocks.

(** *** Stateful computations *)

Definition M (A : Type) : Type := World -> A * World.

Definition ret {A : Type} (a : A) : M A := fun w => (a, w).

Definition bind {A B : Type} (m : M A) (k : A -> M B) : M B :=
  fun w => let (a, w') := m w in k a w'.

Declare Scope mongo_scope.
Delimit Scope mongo_scope with mongo.
Notation "x <- m ;; k" := (bind m (fun x => k))
  (at level 61, m at next level, right associativity) : mongo_scope.
Local Open Scope mongo_scope.

(** [time.Now()]: the clock is read and moves on. *)
Definition time_Now : M Time :=
  fun w =>
    (clock w,
     mkWorld (ucd w) (CodePoints w) (blocks w) (clock w + 1)%Z (lastID w)
       (faults w) (calls w)).

(** [primitive.NewObjectID()]: a value never handed out before, and never
    the zero value. *)
Definition NewObjectID : M ObjectID :=
  fun w =>
    let id := N.succ (lastID w) in
    (id,
     mkWorld (ucd w) (CodePoints w) (blocks w) (clock w) id (faults w)
       (calls w)).

(** One request to the server: it is recorded, and the environment's next
    outcome is consumed. *)
Definition request (c : Call) : M (option Fault) :=
  fun w =>
    let outcome :=
      match faults w with
      | Some f :: _ => Some f
      | _ => None
      end in
    (outcome,
     mkWorld (ucd w) (CodePoints w) (blocks w) (clock w) (lastID w)
       (tl (faults w)) (calls w ++ [c])).

Definition update {A : Type} (h : Handle A)
    (f : Collection A -> Collection A) : M unit :=
  fun w => (tt, put h (f (get h w)) w).

Definition read {A B : Type} (h : Handle A) (f : Collection A -> B) : M B :=
  fun w => (f (get h w), w).

(** *** Driver calls *)

(** The collection after the documents [ds] have been written to it: writing
    creates the namespace; writing nothing leaves everything as it is. *)
Definition written {A : Type} (c : Collection A) (ds : list A) : Collection A :=
  match ds with
  | [] => c
  | _ => Present (docs c ++ ds) (indexes c)
  end.

(** [Collection.Drop]: the namespace disappears with its documents and
    indexes; dropping an absent namespace succeeds. *)
Definition Drop {A : Type} (h : Handle A) : M (option error) :=
  flt <- request (CallDrop (name h)) ;;
  match flt with
  | Some f => ret (Some (fault_err f))
  | None =>
    _ <- update h (fun _ => Absent) ;;
    ret None
  end.

(** [Collection.DeleteMany] with the empty filter [bson.M{}]: every document
    goes, the indexes stay, and an absent namespace stays absent.  A failing
    call has removed the first [fault_partial] documents. *)
Definition DeleteMany {A : Type} (h : Handle A) : M (option error) :=
  flt <- request (CallDeleteMany (name h)) ;;
  match flt with
  | Some f =>
    _ <- update h (fun c =>
           match c with
           | Absent => Absent
           | Present documents indexModels =>
             Present (skipn (fault_partial f) documents) indexModels
           end) ;;
    ret (Some (fault_err f))
  | None =>
    _ <- update h (fun c =>
           match c with
           | Absent => Absent
           | Present _ indexModels => Present [] indexModels
           end) ;;
    ret None
  end.

(** [Collection.InsertMany], ordered: the documents are appended in order,
    creating the namespace if need be.  A failing call has written the first
    [fault_partial] documents of the batch.  The driver refuses an empty
    batch without a request.  Every document the program passes carries the
    [_id] it has just been given, so the driver generates none. *)
Definition InsertMany {A : Type} (h : Handle A) (documents : list A)
    : M (option error) :=
  match documents with
  | [] =>
    ret (Some (DriverError "must provide at least one element in input slice"))
  | _ =>
    flt <- request (CallInsertMany (name h) (length documents)) ;;
    match flt with
    | Some f =>
      _ <- update h (fun c => written c (firstn (fault_partial f) documents)) ;;
      ret (Some (fault_err f))
    | None =>
      _ <- update h (fun c => written c documents) ;;
      ret None
    end
  end.

(** [Collection.InsertOne] of a metadata document: its [ID] is the zero
    value and tagged [omitempty], so the driver generates the [_id]; the
    fields tagged [bson:"-"] ([Xmlns], [Repertoire], [Blocks]) are not
    written.  The result is the inserted [_id]. *)
Definition InsertOne (h : Handle UCD.t) (document : UCD.t)
    : M (ObjectID * option error) :=
  flt <- request (CallInsertOne (name h)) ;;
  match flt with
  | Some f => ret (0%N, Some (fault_err f))
  | None =>
    id <- (if (UCD.ID document =? 0)%N then NewObjectID
           else ret (UCD.ID document)) ;;
    let stored :=
      UCD.mk id "" (UCD.Description document) None None
        (UCD.CreatedAt document) (UCD.UpdatedAt document)
        (UCD.Version document) in
    _ <- update h (fun c => written c [stored]) ;;
    ret (id, None)
  end.

(** [Collection.Indexes().DropAll]: on an absent namespace the server
    answers with its NamespaceNotFound error. *)
Definition DropAll {A : Type} (h : Handle A) : M (option error) :=
  flt <- request (CallDropAllIndexes (name h)) ;;
  match flt with
  | Some f => ret (Some (fault_err f))
  | None =>
    c <- read h (fun c => c) ;;
    match c with
    | Present documents _ =>
      _ <- update h (fun _ => Present documents []) ;;
      ret None
    | Absent => ret (Some (DriverError "(NamespaceNotFound) ns not found"))
    end
  end.

(** The indexes of a collection after the indexes [models] have been
    created on it: an index the collection already has is left as it is. *)
Definition withIndexes (existing models : list IndexModel) : list IndexModel :=
  fold_left
    (fun ixs m => if existsb (index_eqb m) ixs then ixs else ixs ++ [m])
    models existing.

(** [Collection.Indexes().CreateMany]: the namespace is created if need
    be. *)
Definition CreateMany {A : Type} (h : Handle A) (models : list IndexModel)
    : M (option error) :=
  flt <- request (CallCreateIndexes (name h) (length models)) ;;
  match flt with
  | Some f => ret (Some (fault_err f))
  | None =>
    _ <- update h (fun c => Present (docs c) (withIndexes (indexes c) models)) ;;
    ret None
  end.

(** [Collection.FindOne(ctx, filter).Decode(&v)]: the first document
    matching the filter, or [mongo.ErrNoDocuments] when none does. *)
Definition FindOneDecode {A : Type} (h : Handle A) (filter : A -> bool)
    : M (A + error) :=
  flt <- request (CallFindOne (name h)) ;;
  match flt with
  | Some f => ret (inr (fault_err f))
  | None =>
    found <- read h (fun c => find filter (docs c)) ;;
    match found with
    | Some d => ret (inl d)
    | None => ret (inr ErrNoDocuments)
    end
  end.

(** *** Read-only driver calls *)

(** One read request: the environment's next outcome is consumed.  Read
    requests leave the store alone and are not entered in [calls]. *)
Definition serve : M (option Fault) :=
  fun w =>
    let outcome :=
      match faults w with
      | Some f :: _ => Some f
      | _ => None
      end in
    (outcome,
     mkWorld (ucd w) (CodePoints w) (blocks w) (clock w) (lastID w)
       (tl (faults w)) (calls w)).

(** [Collection.CountDocuments] with the empty filter [bson.M{}]; the count
    is an [int64]. *)
Definition CountDocuments {A : Type} (h : Handle A) : M (Z * option error) :=
  flt <- serve ;;
  match flt with
  | Some f => ret (0%Z, Some (fault_err f))
  | None =>
    n <- read h (fun c => Z.of_nat (length (docs c))) ;;
    ret (n, None)
  end.

(** [Collection.Find]: a cursor over the documents matching the filter, in
    the order of the collection. *)
Definition Find {A : Type} (h : Handle A) (filter : A -> bool)
    : M (list A + error) :=
  flt <- serve ;;
  match flt with
  | Some f => ret (inr (fault_err f))
  | None =>
    cursor <- read h (fun c => List.filter filter (docs c)) ;;
    ret (inl cursor)
  end.

(** [Cursor.All]: every document of the cursor, decoded. *)
Definition CursorAll {A : Type} (cursor : list A) : M (list A * option error) :=
  flt <- serve ;;
  match flt with
  | Some f => ret ([], Some (fault_err f))
  | None => ret (cursor, None)
  end.

(** The stage [{"$group": {"_id": key, "count": {"$sum": 1}}}]: one row per
    value of the key, with the number of documents that have it.  The
    server does not promise an order of the rows; here a value's row stands
    where the value first occurred. *)
Fixpoint countKey (k : string) (rows : list (string * nat))
    : list (string * nat) :=
  match rows with
  | [] => [(k, 1)]
  | (k', n) :: rest =>
    if (k' =? k)%string then (k', S n) :: rest else (k', n) :: countKey k rest
  end.

Definition groupCount {A : Type} (key : A -> string) (documents : list A)
    : list (string * nat) :=
  fold_left (fun rows d => countKey (key d) rows) documents [].

(** The stage [{"$sort": {"count": -1}}]: rows by descending count.  The
    server does not promise an order among equal counts; here they keep the
    order they came in. *)
Fixpoint insertByCount (row : string * nat) (sorted : list (string * nat))
    : list (string * nat) :=
  match sorted with
  | [] => [row]
  | r :: rest =>
    if (snd r <? snd row)%nat then row :: r :: rest
    else r :: insertByCount row rest
  end.

Definition sortByCountDesc (rows : list (string * nat)) : list (string * nat) :=
  fold_left (fun sorted row => insertByCount row sorted) rows [].

(** The stage [{"$limit": n}]. *)
Definition limit (n : nat) (rows : list (string * nat)) : list (string * nat) :=
  firstn n rows.

(** [Collection.Aggregate]: a cursor over the rows the pipeline makes of the
    collection's documents. *)
Definition Aggregate {A : Type} (h : Handle A)
    (pipeline : list A -> list (string * nat))
    : M (list (string * nat) + error) :=
  flt <- serve ;;
  match flt with
  | Some f => ret (inr (fault_err f))
  | None =>
    cursor <- read h (fun c => pipeline (docs c)) ;;
    ret (inl cursor)
  end.

End Mongo.

(** ** [database/mongo.go] *)

(** The [context.WithTimeout] deadlines are part of the environment: a call
    that runs into one is a failing call. *)

Module Database.

Import Mongo.
Local Open Scope mongo_scope.

(** [s[i:j]] on a slice. *)
Definition slice {A : Type} (s : list A) (i j : nat) : list A :=
  firstn (j - i) (skipn i s).

Definition SaveUCD (ucd : UCD.t) : M (option error) :=
  createdAt <- time_Now ;;
  updatedAt <- time_Now ;;
  let ucdMetadata :=
    UCD.mk 0%N (UCD.Xmlns ucd) (UCD.Description ucd) None None
      createdAt updatedAt (UCD.Version ucd) in
  err <- Drop ucdH ;;
  match err with
  | Some err =>
    ret (Some (ErrorfW
                 ("failed to clear existing UCD data: " ++ Error err)%string
                 err))
  | None =>
    res <- InsertOne ucdH ucdMetadata ;;
    match snd res with
    | Some err =>
      ret (Some (ErrorfW ("failed to save UCD: " ++ Error err)%string err))
    | None => ret None
    end
  end.

(** The loop [for i := range codePoints] of [SaveCodePoints]: every element
    gets a new [ID] and the timestamps [now], and is copied to
    [documents]. *)
Fixpoint stampCodePoints (now : Time) (codePoints : list CodePoint.t)
    : M (list CodePoint.t) :=
  match codePoints with
  | [] => ret []
  | cp :: rest =>
    id <- NewObjectID ;;
    let cp := CodePoint.set_ID id cp in
    let cp := CodePoint.set_CreatedAt now cp in
    let cp := CodePoint.set_UpdatedAt now cp in
    documents <- stampCodePoints now rest ;;
    ret (cp :: documents)
  end.

Definition batchSize : nat := 1000.

(** [end := i + batchSize; if end > len(documents) { end = len(documents) }],
    for [len(documents) = n]. *)
Definition batchEnd (n i : nat) : nat :=
  let end_ := i + batchSize in
  if (n <? end_)%nat then n else end_.

(** The loop [for i := 0; i < len(documents); i += batchSize], entered at
    index [i]. *)
Equations? insertBatches (documents : list CodePoint.t) (i : nat) (w : World)
    : option error * World by wf (length documents - i) lt :=
  insertBatches documents i w with lt_dec i (length documents) := {
    | right _ => (None, w)
    | left _ with
        InsertMany CodePointsH
          (slice documents i (batchEnd (length documents) i)) w := {
      | (Some err, w') =>
        (Some (ErrorfW
                 (String.append "failed to insert code points batch "
                    (String.append (itoa i)
                       (String.append "-"
                          (String.append
                             (itoa (batchEnd (length documents) i))
                             (String.append ": " (Error err))))))
                 err), w')
      | (None, w') => insertBatches documents (i + batchSize) w'
      }
    }.
Proof. unfold batchSize. lia. Qed.

Definition SaveCodePoints (codePoints : list CodePoint.t) : M (option error) :=
  if (length codePoints =? 0)%nat then ret None
  else
    err <- DeleteMany CodePointsH ;;
    match err with
    | Some err =>
      ret (Some (ErrorfW
                   ("failed to clear existing code points: " ++ Error err)%string
                   err))
    | None =>
      now <- time_Now ;;
      documents <- stampCodePoints now codePoints ;;
      insertBatches documents 0
    end.

Fixpoint stampBlocks (now : Time) (blocks : list Block.t) : M (list Block.t) :=
  match blocks with
  | [] => ret []
  | b :: rest =>
    id <- NewObjectID ;;
    let b := Block.set_ID id b in
    let b := Block.set_CreatedAt now b in
    let b := Block.set_UpdatedAt now b in
    documents <- stampBlocks now rest ;;
    ret (b :: documents)
  end.

Definition SaveBlocks (blocks : list Block.t) : M (option error) :=
  if (length blocks =? 0)%nat then ret None
  else
    err <- DeleteMany blocksH ;;
    match err with
    | Some err =>
      ret (Some (ErrorfW
                   ("failed to clear existing blocks: " ++ Error err)%string err))
    | None =>
      now <- time_Now ;;
      documents <- stampBlocks now blocks ;;
      err <- InsertMany blocksH documents ;;
      match err with
      | Some err =>
        ret (Some (ErrorfW ("failed to insert blocks: " ++ Error err)%string err))
      | None => ret None
      end
    end.

(** [s[i]], a byte.  In [indexIgnoreCase] every index is within bounds. *)
Definition byteAt (s : string) (i : nat) : N :=
  match String.get i s with
  | Some c => N_of_ascii c
  | None => 0%N
  end.

(** The inner loop of [indexIgnoreCase], entered at [j] with [n] iterations
    to go; the result is the final value of [match]. *)
Fixpoint matchFrom (s substr : string) (i j n : nat) : bool :=
  match n with
  | O => true
  | S n' =>
    let c1 := byteAt s (i + j) in
    let c2 := byteAt substr j in
    let c1 :=
      if ((65 <=? c1) && (c1 <=? 90))%N then ((c1 + 32) mod 256)%N else c1 in
    let c2 :=
      if ((65 <=? c2) && (c2 <=? 90))%N then ((c2 + 32) mod 256)%N else c2 in
    if negb (c1 =? c2)%N then false
    else matchFrom s substr i (j + 1) n'
  end.

(** The outer loop of [indexIgnoreCase], entered at [i] with [n] iterations
    to go. *)
Fixpoint searchFrom (s substr : string) (i n : nat) : Z :=
  match n with
  | O => (-1)%Z
  | S n' =>
    if matchFrom s substr i 0 (String.length substr) then Z.of_nat i
    else searchFrom s substr (i + 1) n'
  end.

Definition indexIgnoreCase (s substr : string) : Z :=
  if (String.length substr =? 0)%nat then 0%Z
  else if (String.length s <? String.length substr)%nat then (-1)%Z
  else searchFrom s substr 0 (String.length s - String.length substr + 1).

Definition contains (s substr : string) : bool :=
  (String.length substr <=? String.length s)%nat
  && ((s =? substr)%string
      || ((String.length substr <? String.length s)%nat
          && (0 <=? indexIgnoreCase s substr)%Z)).

Definition isNamespaceNotFoundError (err : option error) : bool :=
  match err with
  | None => false
  | Some err =>
    let errMsg := Error err in
    contains errMsg "NamespaceNotFound" || contains errMsg "ns not found"
  end.

Definition codePointIndexes : list IndexModel :=
  [ mkIndex [("cp", 1%Z)] true false;
    mkIndex [("name", 1%Z)] false false;
    mkIndex [("block", 1%Z)] false false;
    mkIndex [("general_category", 1%Z)] false false;
    mkIndex [("script", 1%Z)] false false;
    mkIndex [("age", 1%Z)] false false;
    mkIndex [("first_cp", 1%Z); ("last_cp", 1%Z)] false false ].

Definition blockIndexes : list IndexModel :=
  [ mkIndex [("name", 1%Z)] false true;
    mkIndex [("first_cp", 1%Z); ("last_cp", 1%Z)] false false ].

Definition CreateIndexes : M (option error) :=
  let createIndexes : M (option error) :=
    err <- CreateMany CodePointsH codePointIndexes ;;
    match err with
    | Some err =>
      ret (Some (ErrorfW
                   ("failed to create code points indexes: " ++ Error err)%string
                   err))
    | None =>
      err <- CreateMany blocksH blockIndexes ;;
      match err with
      | Some err =>
        ret (Some (ErrorfW
                     ("failed to create blocks indexes: " ++ Error err)%string
                     err))
      | None => ret None
      end
    end in
  let dropBlockIndexes : M (option error) :=
    err <- DropAll blocksH ;;
    match err with
    | Some e =>
      if negb (isNamespaceNotFoundError err) then
        ret (Some (ErrorfW
                     ("failed to drop existing block indexes: " ++ Error e)%string
                     e))
      else createIndexes
    | None => createIndexes
    end in
  err <- DropAll CodePointsH ;;
  match err with
  | Some e =>
    if negb (isNamespaceNotFoundError err) then
      ret (Some (ErrorfW
                   ("failed to drop existing indexes: " ++ Error e)%string e))
    else dropBlockIndexes
  | None => dropBlockIndexes
  end.

(** The two results are the [*model.CodePoint] and the [error]. *)
Definition GetCodePointByCP (cp : string)
    : M (option CodePoint.t * option error) :=
  res <- FindOneDecode CodePointsH (fun d => (CodePoint.CP d =? cp)%string) ;;
  match res with
  | inr err =>
    if isErrNoDocuments err then ret (None, None)
    else
      ret (None,
           Some (ErrorfW
                   ("failed to find code point " ++ cp ++ ": " ++ Error err)%string
                   err))
  | inl codePoint => ret (Some codePoint, None)
  end.

Definition GetCodePointsByBlock (blockName : string)
    : M (list CodePoint.t * option error) :=
  res <- Find CodePointsH (fun d => (CodePoint.Block d =? blockName)%string) ;;
  match res with
  | inr err =>
    ret ([],
         Some (ErrorfW
                 ("failed to find code points in block " ++ blockName ++ ": "
                  ++ Error err)%string
                 err))
  | inl cursor =>
    res <- CursorAll cursor ;;
    match snd res with
    | Some err =>
      ret ([],
           Some (ErrorfW ("failed to decode code points: " ++ Error err)%string
                   err))
    | None => ret (fst res, None)
    end
  end.

Record ScriptStat : Type := mkScriptStat {
  Script : string;
  Count : Z
}.

Record DatabaseStats : Type := mkDatabaseStats {
  CodePointCount : Z;
  BlockCount : Z;
  UCDCount : Z;
  TopScripts : list ScriptStat
}.

(** The pipeline of [GetStats]: group by [script] counting, sort by count
    descending, keep ten. *)
Definition topScriptsPipeline (documents : list CodePoint.t)
    : list (string * nat) :=
  limit 10 (sortByCountDesc (groupCount CodePoint.Script documents)).

(** Decoding a row [{"_id": ..., "count": ...}] into a [ScriptStat]. *)
Definition decodeScriptStat (row : string * nat) : ScriptStat :=
  mkScriptStat (fst row) (Z.of_nat (snd row)).

Definition GetStats : M (option DatabaseStats * option error) :=
  res <- CountDocuments CodePointsH ;;
  match snd res with
  | Some err =>
    ret (None,
         Some (ErrorfW ("failed to count code points: " ++ Error err)%string err))
  | None =>
    let codePointCount := fst res in
    res <- CountDocuments blocksH ;;
    match snd res with
    | Some err =>
      ret (None,
           Some (ErrorfW ("failed to count blocks: " ++ Error err)%string err))
    | None =>
      let blockCount := fst res in
      res <- CountDocuments ucdH ;;
      match snd res with
      | Some err =>
        ret (None,
             Some (ErrorfW ("failed to count UCD documents: " ++ Error err)%string
                     err))
      | None =>
        let ucdCount := fst res in
        res <- Aggregate CodePointsH topScriptsPipeline ;;
        match res with
        | inr err =>
          ret (None,
               Some (ErrorfW
                       ("failed to aggregate by script: " ++ Error err)%string
                       err))
        | inl cursor =>
          res <- CursorAll cursor ;;
          match snd res with
          | Some err =>
            ret (None,
                 Some (ErrorfW
                         ("failed to decode script stats: " ++ Error err)%string
                         err))
          | None =>
            let scriptStats := map decodeScriptStat (fst res) in
            ret (Some (mkDatabaseStats codePointCount blockCount ucdCount
                         scriptStats),
                 None)
          end
        end
      end
    end
  end.

End Database.

(** ** [main.go] *)

Module Main.

Import Mongo.
Local Open Scope mongo_scope.

Section Run.

Variable TrimSpace : string -> string.

(** [main] from the parsed document [ucd] on, up to its last call that
    writes to the store; fetching and decoding the XML come before, the
    statistics ([GetStats], [analyzeCharacterTypes]) only read.  [main]
    prints the error that stops it and returns; here the error is the
    result.  The connection ([NewMongoClient]) is taken as established. *)
Definition run (ucd : UCD.t) : M (option error) :=
  let '(codePoints, blocks, err) := Parser.ProcessUCDForMongoDB TrimSpace ucd in
  match err with
  | Some err => ret (Some err)
  | None =>
    err <- Database.CreateIndexes ;;
    match err with
    | Some err => ret (Some err)
    | None =>
      let ucd := UCD.set_Version "16.0.0" ucd in
      err <- Database.SaveUCD ucd ;;
      match err with
      | Some err => ret (Some err)
      | None =>
        err <- Database.SaveCodePoints codePoints ;;
        match err with
        | Some err => ret (Some err)
        | None =>
          err <- Database.SaveBlocks blocks ;;
          match err with
          | Some err => ret (Some err)
          | None => ret None
          end
        end
      end
    end
  end.

End Run.

End Main.

(** ** [model/bool.go] *)

Module BoolAttr.

(** [strconv.ErrSyntax], which is [errors.New("invalid syntax")]. *)
Definition ErrSyntax : error := Errorf "invalid syntax".

(** [(b *UCDBool).UnmarshalXMLAttr(attr)]: the new value of [*b] and the
    error; [value] is [attr.Value]. *)
Definition UnmarshalXMLAttr (b : UCDBool) (value : string)
    : UCDBool * option error :=
  if (value =? "Y")%string then (true, None)
  else if (value =? "N")%string then (false, None)
  else (b, Some ErrSyntax).

End BoolAttr.

(** ** [main.go]: fetching the XML, with its cache

    The operating system and the network are the environment of these
    functions.  A file system is the files it holds; a call to the system
    either succeeds with its documented effect or fails with an error chosen
    by the environment, in which case it has done nothing.  What a URL
    answers is part of the world. *)

Module Fetch.

(** What opening and reading one archive member gives: [file.Open()]
    followed by [io.ReadAll]. *)
Inductive Member : Type :=
| OpenFails (err : error)
| ReadFails (err : error)
| Reads (content : string).

(** A [*zip.File]. *)
Record ZipFile : Type := mkZipFile {
  Name : string;
  Contents : Member
}.

(** An [*http.Response]: the status code and what [io.ReadAll(resp.Body)]
    gives. *)
Record Response : Type := mkResponse {
  StatusCode : nat;
  Body : string + error
}.

Inductive Call : Type :=
| CallMkdirAll (path : string)
| CallStat (path : string)
| CallReadFile (path : string)
| CallWriteFile (path : string)
| CallOpenReader (path : string)
| CallGet (url : string).

(** The files with their contents, the directory [os.TempDir] names, what
    [http.Get] gives for each URL, the outcomes in store for the coming
    system calls ([None], or no entry left: the call succeeds), and the
    calls made so far. *)
Record World : Type := mkWorld {
  files : list (string * string);
  TempDir : string;
  web : string -> Response + error;
  faults : list (option error);
  calls : list Call
}.

Fixpoint lookup (path : string) (fs : list (string * string)) : option string :=
  match fs with
  | [] => None
  | (p, content) :: rest =>
    if (p =? path)%string then Some content else lookup path rest
  end.

Fixpoint store (path content : string) (fs : list (string * string))
    : list (string * string) :=
  match fs with
  | [] => [(path, content)]
  | (p, c) :: rest =>
    if (p =? path)%string then (p, content) :: rest
    else (p, c) :: store path content rest
  end.

Definition M (A : Type) : Type := World -> A * World.

Definition ret {A : Type} (a : A) : M A := fun w => (a, w).

Definition bind {A B : Type} (m : M A) (k : A -> M B) : M B :=
  fun w => let (a, w') := m w in k a w'.

Declare Scope fetch_scope.
Delimit Scope fetch_scope with fetch.
Notation "x <- m ;; k" := (bind m (fun x => k))
  (at level 61, m at next level, right associativity) : fetch_scope.
Local Open Scope fetch_scope.

(** One call to the system: it is recorded, and the next outcome is
    consumed. *)
Definition syscall (c : Call) : M (option error) :=
  fun w =>
    let outcome :=
      match faults w with
      | Some e :: _ => Some e
      | _ => None
      end in
    (outcome,
     mkWorld (files w) (TempDir w) (web w) (tl (faults w)) (calls w ++ [c])).

Definition os_TempDir : M string := fun w => (TempDir w, w).

(** [os.MkdirAll]; directories are not part of the model. *)
Definition os_MkdirAll (path : string) : M (option error) :=
  syscall (CallMkdirAll path).

(** The error of [os.Stat]. *)
Definition os_Stat (path : string) : M (option error) :=
  flt <- syscall (CallStat path) ;;
  match flt with
  | Some err => ret (Some err)
  | None =>
    fun w =>
      match lookup path (files w) with
      | Some _ => (None, w)
      | None => (Some (Errorf "file does not exist"), w)
      end
  end.

Definition os_ReadFile (path : string) : M (string * option error) :=
  flt <- syscall (CallReadFile path) ;;
  match flt with
  | Some err => ret (""%string, Some err)
  | None =>
    fun w =>
      match lookup path (files w) with
      | Some content => ((content, None), w)
      | None => ((""%string, Some (Errorf "file does not exist")), w)
      end
  end.

Definition os_WriteFile (path content : string) : M (option error) :=
  flt <- syscall (CallWriteFile path) ;;
  match flt with
  | Some err => ret (Some err)
  | None =>
    fun w =>
      (None,
       mkWorld (store path content (files w)) (TempDir w) (web w) (faults w)
         (calls w))
  end.

(** [http.Get]: what the URL answers. *)
Definition http_Get (url : string) : M (Response + error) :=
  fun w =>
    (web w url,
     mkWorld (files w) (TempDir w) (web w) (faults w) (calls w ++ [CallGet url])).

Section Libraries.

(** The parser of [archive/zip] ([zip.NewReader] on the bytes of an
    archive), [url.JoinPath] and [filepath.Join] belong to the Go standard
    library. *)
Variable zip_NewReader : string -> list ZipFile + error.
Variable url_JoinPath : string -> string -> string + error.
Variable filepath_Join : string -> string -> string.

(** [zip.OpenReader]: the file is opened and parsed. *)
Definition zip_OpenReader (path : string) : M (list ZipFile + error) :=
  flt <- syscall (CallOpenReader path) ;;
  match flt with
  | Some err => ret (inr err)
  | None =>
    fun w =>
      match lookup path (files w) with
      | Some content => (zip_NewReader content, w)
      | None => (inr (Errorf "file does not exist"), w)
      end
  end.

Definition cacheFile : string := "ucd.all.flat.xml".
Definition cacheZipFile : string := "ucd.all.flat.zip".

Definition isCacheValid (cacheFilePath : string) : M bool :=
  err <- os_Stat cacheFilePath ;;
  match err with
  | None => ret true
  | Some _ => ret false
  end.

(** The loop of [extractXmlFromZipFile] with the [return] that follows
    it. *)
Fixpoint extractXmlLoop (zipFiles : list ZipFile) : string * option error :=
  match zipFiles with
  | [] => (""%string, Some (Errorf "ucd.all.flat.xml not found in zip file"))
  | file :: rest =>
    if negb (Name file =? "ucd.all.flat.xml")%string then extractXmlLoop rest
    else
      match Contents file with
      | OpenFails err =>
        (""%string,
         Some (ErrorfW ("failed to open file in zip: " ++ Error err)%string err))
      | ReadFails err =>
        (""%string,
         Some (ErrorfW ("failed to read XML content: " ++ Error err)%string err))
      | Reads content => (content, None)
      end
  end.

Definition extractXmlFromZipFile (zipFilePath : string)
    : M (string * option error) :=
  opened <- zip_OpenReader zipFilePath ;;
  match opened with
  | inr err =>
    ret (""%string,
         Some (ErrorfW ("failed to open zip file: " ++ Error err)%string err))
  | inl zipFiles => ret (extractXmlLoop zipFiles)
  end.

(** The loop of [fetchUcdXmlContent]: it has no [break], so it runs on
    after a member has been read; the result is the final [xmlContent], or
    the error that made the function return. *)
Fixpoint fetchXmlLoop (zipFiles : list ZipFile) (xmlContent : string)
    : string * option error :=
  match zipFiles with
  | [] => (xmlContent, None)
  | file :: rest =>
    if negb (Name file =? "ucd.all.flat.xml")%string
    then fetchXmlLoop rest xmlContent
    else
      match Contents file with
      | OpenFails err =>
        (""%string,
         Some (ErrorfW ("failed to open file in zip: " ++ Error err)%string err))
      | ReadFails err =>
        (""%string,
         Some (ErrorfW ("failed to read XML content: " ++ Error err)%string err))
      | Reads content => fetchXmlLoop rest content
      end
  end.

Definition fetchUcdXmlContent (baseUrl : string) : M (string * option error) :=
  let fileName := "ucd.all.flat.zip"%string in
  match url_JoinPath baseUrl fileName with
  | inr err =>
    ret (""%string,
         Some (ErrorfW ("failed to construct file URL: " ++ Error err)%string err))
  | inl filePath =>
    got <- http_Get filePath ;;
    match got with
    | inr err =>
      ret (""%string,
           Some (ErrorfW ("failed to fetch file: " ++ Error err)%string err))
    | inl resp =>
      if negb (StatusCode resp =? 200)%nat then
        ret (""%string,
             Some (Errorf
                     ("failed to fetch file: status code "
                      ++ itoa (StatusCode resp))%string))
      else
        match Body resp with
        | inr err =>
          ret (""%string,
               Some (ErrorfW
                       ("failed to read response body: " ++ Error err)%string
                       err))
        | inl data =>
          match zip_NewReader data with
          | inr err =>
            ret (""%string,
                 Some (ErrorfW
                         ("failed to create zip reader: " ++ Error err)%string
                         err))
          | inl zipFiles =>
            match fetchXmlLoop zipFiles ""%string with
            | (_, Some err) => ret (""%string, Some err)
            | (xmlContent, None) =>
              if (String.length xmlContent =? 0)%nat then
                ret (""%string,
                     Some (Errorf "ucd.all.flat.xml not found in zip file"))
              else ret (xmlContent, None)
            end
          end
        end
    end
  end.

Definition fetchUcdXmlContentWithCache (baseUrl : string)
    : M (string * option error) :=
  cacheDir <- os_TempDir ;;
  err <- os_MkdirAll cacheDir ;;
  match err with
  | Some err =>
    ret (""%string,
         Some (ErrorfW ("failed to create cache directory: " ++ Error err)%string
                 err))
  | None =>
    let cacheFilePath := filepath_Join cacheDir cacheFile in
    let cacheZipPath := filepath_Join cacheDir cacheZipFile in
    (* the statements from "No cache found" on *)
    let download : M (string * option error) :=
      res <- fetchUcdXmlContent baseUrl ;;
      match snd res with
      | Some err => ret (""%string, Some err)
      | None =>
        _ <- os_WriteFile cacheFilePath (fst res) ;;
        ret (fst res, None)
      end in
    valid <- isCacheValid cacheFilePath ;;
    if valid then os_ReadFile cacheFilePath
    else
      valid <- isCacheValid cacheZipPath ;;
      if valid then
        res <- extractXmlFromZipFile cacheZipPath ;;
        match snd res with
        | Some _ => download
        | None =>
          _ <- os_WriteFile cacheFilePath (fst res) ;;
          ret (fst res, None)
        end
      else download
  end.

End Libraries.

End Fetch.

(** * Vocabulary of the properties *)

(** What the sentinel rule of [NormalizeCodePoint] does to one value. *)
Definition sentinel (s : string) : string :=
  if (s =? "#")%string then ""%string else s.

(** A record is accepted when [ValidateCodePoint] returns [nil]. *)
Definition accepted (cp : CodePoint.t) : bool :=
  match Parser.ValidateCodePoint cp with
  | None => true
  | Some _ => false
  end.

(** The identity invariant as the specification words it: exactly one of the
    single code value and the range is populated. *)
Definition exactlyOneIdentity (cp : CodePoint.t) : Prop :=
  (CodePoint.CP cp <> ""%string /\ CodePoint.FirstCP cp = ""%string
   /\ CodePoint.LastCP cp = ""%string)
  \/ (CodePoint.CP cp = ""%string /\ CodePoint.FirstCP cp <> ""%string
      /\ CodePoint.LastCP cp <> ""%string).

(** The identity condition [ValidateCodePoint] enforces. *)
Definition identityPresent (cp : CodePoint.t) : Prop :=
  (CodePoint.CP cp <> ""%string \/ CodePoint.FirstCP cp <> ""%string)
  /\ (CodePoint.FirstCP cp <> ""%string -> CodePoint.LastCP cp <> ""%string).

(** A record with an identity: the zero value but for the three identity
    fields. *)
Definition withIdentity (cp first last : string) : CodePoint.t :=
  CodePoint.mk 0%N cp first last CodePointProperties.zero.

(** The fields [NormalizeCodePoint] applies the sentinel rule to, in the
    order of the source. *)
Definition sentinelFields : list (CodePoint.t -> string) :=
  [ CodePoint.BidiMirroringGlyph; CodePoint.DecompositionMapping;
    CodePoint.SimpleUppercase; CodePoint.SimpleLowercase;
    CodePoint.SimpleTitlecase; CodePoint.UppercaseMapping;
    CodePoint.LowercaseMapping; CodePoint.TitlecaseMapping;
    CodePoint.SimpleCaseFolding; CodePoint.CaseFolding ].

(** A document whose repertoire has the four given subsequences. *)
Definition ucdOf (normal reserved noncharacter surrogate : list CodePoint.t)
    : UCD.t :=
  UCD.mk 0%N "" "" (Some (Repertoire.mk reserved noncharacter surrogate normal))
    None 0%Z 0%Z "".

(** ["0041"], a single code value; ["0378".."0379"], a range. *)
Definition latinA : CodePoint.t := withIdentity "0041" "" "".
Definition reserved0378 : CodePoint.t := withIdentity "" "0378" "0379".

(** A record with both a single code value and a complete range. *)
Definition bothIdentities : CodePoint.t := withIdentity "0041" "0041" "005A".

(** A record as the source has it: a padded name, placeholders in three
    mapping fields. *)
Definition rawLatinA : CodePoint.t :=
  CodePoint.set_Name "  LATIN CAPITAL LETTER A "
    (CodePoint.set_BidiMirroringGlyph "#"
       (CodePoint.set_SimpleUppercase "#"
          (CodePoint.set_SimpleLowercase "0061"
             (CodePoint.set_CaseFolding "#" latinA)))).

(** The outcome the environment has in store for the next driver call. *)
Definition nextFault (w : Mongo.World) : option Mongo.Fault :=
  match Mongo.faults w with
  | Some f :: _ => Some f
  | _ => None
  end.

(** No failure is in store for any coming driver call. *)
Definition faultFree (w : Mongo.World) : Prop :=
  Forall (fun o : option Mongo.Fault => o = None) (Mongo.faults w).

(** The documents [SaveCodePoints] builds from [codePoints] when the last
    identity handed out is [last] and the clock reads [now]: the records in
    order, each with the next new identity and both timestamps [now]. *)
Fixpoint stampedCodePoints (now : Time) (last : ObjectID)
    (codePoints : list CodePoint.t) : list CodePoint.t :=
  match codePoints with
  | [] => []
  | cp :: rest =>
    CodePoint.set_UpdatedAt now
      (CodePoint.set_CreatedAt now (CodePoint.set_ID (N.succ last) cp))
    :: stampedCodePoints now (N.succ last) rest
  end.

Fixpoint stampedBlocks (now : Time) (last : ObjectID) (blocks : list Block.t)
    : list Block.t :=
  match blocks with
  | [] => []
  | b :: rest =>
    Block.set_UpdatedAt now
      (Block.set_CreatedAt now (Block.set_ID (N.succ last) b))
    :: stampedBlocks now (N.succ last) rest
  end.

(** The sizes of the batches [n] documents are inserted in: full batches of
    [batchSize], then the remainder if there is one. *)
Definition batchSizes (n : nat) : list nat :=
  repeat Database.batchSize (n / Database.batchSize)
  ++ (if (n mod Database.batchSize =? 0)%nat then []
      else [n mod Database.batchSize]).

(** A document without what a save assigns afresh: identity and
    timestamps. *)
Definition eraseCodePoint (d : CodePoint.t) : CodePoint.t :=
  CodePoint.set_ID 0%N
    (CodePoint.set_CreatedAt 0%Z (CodePoint.set_UpdatedAt 0%Z d)).

Definition eraseBlock (d : Block.t) : Block.t :=
  Block.set_ID 0%N (Block.set_CreatedAt 0%Z (Block.set_UpdatedAt 0%Z d)).

Definition eraseUCD (d : UCD.t) : UCD.t :=
  UCD.mk 0%N (UCD.Xmlns d) (UCD.Description d) (UCD.Repertoire d)
    (UCD.Blocks d) 0%Z 0%Z (UCD.Version d).

Definition eraseCollection {A : Type} (erase : A -> A)
    (c : Mongo.Collection A) : Mongo.Collection A :=
  match c with
  | Mongo.Absent => Mongo.Absent
  | Mongo.Present documents indexModels =>
    Mongo.Present (map erase documents) indexModels
  end.

(** Two worlds hold the same destination state: the three collections agree
    up to the identities and timestamps of their documents. *)
Definition sameDestination (w1 w2 : Mongo.World) : Prop :=
  eraseCollection eraseUCD (Mongo.ucd w1)
  = eraseCollection eraseUCD (Mongo.ucd w2)
  /\ eraseCollection eraseCodePoint (Mongo.CodePoints w1)
     = eraseCollection eraseCodePoint (Mongo.CodePoints w2)
  /\ eraseCollection eraseBlock (Mongo.blocks w1)
     = eraseCollection eraseBlock (Mongo.blocks w2).

(** An empty store at time 0, with the given outcomes in store. *)
Definition emptyWorld (faults : list (option Mongo.Fault)) : Mongo.World :=
  Mongo.mkWorld Mongo.Absent Mongo.Absent Mongo.Absent 0%Z 0%N faults [].

(** The world after driver calls that wrote the documents [ds] to the code
    points collection in batches of the sizes [sizes], the outcomes [fs]
    being still in store. *)
Definition afterBatches (ds : list CodePoint.t) (sizes : list nat)
    (fs : list (option Mongo.Fault)) (w : Mongo.World) : Mongo.World :=
  Mongo.mkWorld (Mongo.ucd w) (Mongo.written (Mongo.CodePoints w) ds)
    (Mongo.blocks w) (Mongo.clock w) (Mongo.lastID w) fs
    (Mongo.calls w ++ map (Mongo.CallInsertMany "code_points") sizes).

(** The error [SaveCodePoints] reports for the batch [documents[i:end]]
    whose insert failed with [err]. *)
Definition batchError (i end_ : nat) (err : error) : error :=
  ErrorfW
    ("failed to insert code points batch " ++ itoa i ++ "-" ++ itoa end_
     ++ ": " ++ Error err)%string
    err.

(** A collection after every document has been deleted from it. *)
Definition emptied {A : Type} (c : Mongo.Collection A) : Mongo.Collection A :=
  match c with
  | Mongo.Absent => Mongo.Absent
  | Mongo.Present _ indexModels => Mongo.Present [] indexModels
  end.

(** The world in which [SaveCodePoints] starts inserting [n] documents: the
    delete has been served, the clock has been read once and [n] identities
    have been handed out. *)
Definition readyToInsert (n : nat) (w : Mongo.World) : Mongo.World :=
  Mongo.mkWorld (Mongo.ucd w) (emptied (Mongo.CodePoints w)) (Mongo.blocks w)
    (Mongo.clock w + 1)%Z (Mongo.lastID w + N.of_nat n)%N
    (tl (Mongo.faults w))
    (Mongo.calls w ++ [Mongo.CallDeleteMany "code_points"]).

(** What stamping does to one record: new timestamps [now], and nothing but
    identity and timestamps differs from the record it was made from. *)
Definition stampOf (now : Time) (cp d : CodePoint.t) : Prop :=
  CodePoint.CreatedAt d = now /\ CodePoint.UpdatedAt d = now
  /\ CodePoint.set_ID (CodePoint.ID cp)
       (CodePoint.set_CreatedAt (CodePoint.CreatedAt cp)
          (CodePoint.set_UpdatedAt (CodePoint.UpdatedAt cp) d)) = cp.

(** The metadata document of a run, without identity and timestamps. *)
Definition metadataOf (ucd : UCD.t) : UCD.t :=
  UCD.mk 0%N "" (UCD.Description ucd) None None 0%Z 0%Z "16.0.0".

(** What a save leaves in a collection that held [old]: the new documents,
    or the old ones when there is nothing to save. *)
Definition replaced {A : Type} (old new : list A) : list A :=
  match new with
  | [] => old
  | _ => new
  end.

(** A source document with one block. *)
Definition sampleUCD : UCD.t :=
  UCD.mk 0%N "http://www.unicode.org/ns/2003/ucd/1.0" "Unicode 16.0.0"
    (Some (Repertoire.mk [reserved0378] [] [] [rawLatinA]))
    (Some (Blocks.mk [Block.mk 0%N "0000" "007F" "ASCII" 0%Z 0%Z]))
    0%Z 0%Z "".

(** A string that does not start with an ASCII space character. *)
Definition noLeadingSpace (s : string) : Prop :=
  match s with
  | EmptyString => True
  | String c _ => Strings.asciiSpace c = false
  end.

(** 2500 records, to be saved in three batches. *)
Definition manyCodePoints : list CodePoint.t := repeat latinA 2500.

(** The insert of the second batch fails after writing three documents. *)
Definition secondBatchFails : list (option Mongo.Fault) :=
  [None; None; Some (Mongo.mkFault (DriverError "boom") 3)].

(** * Properties *)

(** ** Records and their field updates *)

(** Splits a code point into the fields of all its nested structs. *)
Ltac split_code_point cp :=
  let p := fresh "p" in
  destruct cp as [? ? ? ? p]; destruct p;
  repeat match goal with
         | x : AgeProperties.t |- _ => destruct x
         | x : NameProperties.t |- _ => destruct x
         | x : BidiProperties.t |- _ => destruct x
         | x : DecompositionProperties.t |- _ => destruct x
         | x : NumericProperties.t |- _ => destruct x
         | x : JoiningProperties.t |- _ => destruct x
         | x : CaseProperties.t |- _ => destruct x
         | x : ScriptProperties.t |- _ => destruct x
         end.

Lemma sentinel_idempotent (s : string) : sentinel (sentinel s) = sentinel s.
Proof.
  unfold sentinel. destruct (s =? "#")%string eqn:E.
  - reflexivity.
  - now rewrite E.
Qed.

Lemma sentinel_hash : sentinel "#" = ""%string.
Proof. reflexivity. Qed.

Lemma sentinel_other (s : string) : s <> "#"%string -> sentinel s = s.
Proof.
  intros H. unfold sentinel. destruct (String.eqb_spec s "#"); congruence.
Qed.

(** The conditional update [if cp.F == "#" { cp.F = "" }] writes
    [sentinel cp.F] to the field, whichever branch runs. *)
Ltac sentinel_step :=
  intros cp; unfold sentinel;
  match goal with
  | |- context [(?x =? "#")%string] => destruct (x =? "#")%string
  end; [reflexivity | split_code_point cp; reflexivity].

Lemma BidiMirroringGlyph_step : forall cp,
  (if (CodePoint.BidiMirroringGlyph cp =? "#")%string
   then CodePoint.set_BidiMirroringGlyph "" cp else cp)
  = CodePoint.set_BidiMirroringGlyph
      (sentinel (CodePoint.BidiMirroringGlyph cp)) cp.
Proof. sentinel_step. Qed.

Lemma DecompositionMapping_step : forall cp,
  (if (CodePoint.DecompositionMapping cp =? "#")%string
   then CodePoint.set_DecompositionMapping "" cp else cp)
  = CodePoint.set_DecompositionMapping (sentinel (CodePoint.DecompositionMapping cp)) cp.
Proof. sentinel_step. Qed.

Lemma SimpleUppercase_step : forall cp,
  (if (CodePoint.SimpleUppercase cp =? "#")%string
   then CodePoint.set_SimpleUppercase "" cp else cp)
  = CodePoint.set_SimpleUppercase (sentinel (CodePoint.SimpleUppercase cp)) cp.
Proof. sentinel_step. Qed.

Lemma SimpleLowercase_step : forall cp,
  (if (CodePoint.SimpleLowercase cp =? "#")%string
   then CodePoint.set_SimpleLowercase "" cp else cp)
  = CodePoint.set_SimpleLowercase (sentinel (CodePoint.SimpleLowercase cp)) cp.
Proof. sentinel_step. Qed.

Lemma SimpleTitlecase_step : forall cp,
  (if (CodePoint.SimpleTitlecase cp =? "#")%string
   then CodePoint.set_SimpleTitlecase "" cp else cp)
  = CodePoint.set_SimpleTitlecase (sentinel (CodePoint.SimpleTitlecase cp)) cp.
Proof. sentinel_step. Qed.

Lemma UppercaseMapping_step : forall cp,
  (if (CodePoint.UppercaseMapping cp =? "#")%string
   then CodePoint.set_UppercaseMapping "" cp else cp)
  = CodePoint.set_UppercaseMapping (sentinel (CodePoint.UppercaseMapping cp)) cp.
Proof. sentinel_step. Qed.

Lemma LowercaseMapping_step : forall cp,
  (if (CodePoint.LowercaseMapping cp =? "#")%string
   then CodePoint.set_LowercaseMapping "" cp else cp)
  = CodePoint.set_LowercaseMapping (sentinel (CodePoint.LowercaseMapping cp)) cp.
Proof. sentinel_step. Qed.

Lemma TitlecaseMapping_step : forall cp,
  (if (CodePoint.TitlecaseMapping cp =? "#")%string
   then CodePoint.set_TitlecaseMapping "" cp else cp)
  = CodePoint.set_TitlecaseMapping (sentinel (CodePoint.TitlecaseMapping cp)) cp.
Proof. sentinel_step. Qed.

Lemma SimpleCaseFolding_step : forall cp,
  (if (CodePoint.SimpleCaseFolding cp =? "#")%string
   then CodePoint.set_SimpleCaseFolding "" cp else cp)
  = CodePoint.set_SimpleCaseFolding (sentinel (CodePoint.SimpleCaseFolding cp)) cp.
Proof. sentinel_step. Qed.

Lemma CaseFolding_step : forall cp,
  (if (CodePoint.CaseFolding cp =? "#")%string
   then CodePoint.set_CaseFolding "" cp else cp)
  = CodePoint.set_CaseFolding (sentinel (CodePoint.CaseFolding cp)) cp.
Proof. sentinel_step. Qed.

Lemma let_congruence {A B : Type} (a : A) (f g : A -> B) :
  (forall x, f x = g x) -> (let x := a in f x) = (let x := a in g x).
Proof. intros H. apply H. Qed.

(** Steps under a [let] both sides of an equation start with. *)
Ltac under_let :=
  match goal with
  | |- (let x := ?a in @?f x) = (let y := ?a in @?g y) =>
    apply (let_congruence a f g); intros ?; cbv beta
  end.

Section NormalizationFacts.

Variable TrimSpace : string -> string.

Let Normalize := Parser.NormalizeCodePoint TrimSpace.

(** [NormalizeCodePoint] as fourteen unconditional field updates. *)
Lemma NormalizeCodePoint_updates (cp : CodePoint.t) :
  Parser.NormalizeCodePoint TrimSpace cp =
  let cp := CodePoint.set_Name (TrimSpace (CodePoint.Name cp)) cp in
  let cp := CodePoint.set_Name1 (TrimSpace (CodePoint.Name1 cp)) cp in
  let cp := CodePoint.set_Block (TrimSpace (CodePoint.Block cp)) cp in
  let cp := CodePoint.set_Script (TrimSpace (CodePoint.Script cp)) cp in
  let cp := CodePoint.set_BidiMirroringGlyph (sentinel (CodePoint.BidiMirroringGlyph cp)) cp in
  let cp := CodePoint.set_DecompositionMapping (sentinel (CodePoint.DecompositionMapping cp)) cp in
  let cp := CodePoint.set_SimpleUppercase (sentinel (CodePoint.SimpleUppercase cp)) cp in
  let cp := CodePoint.set_SimpleLowercase (sentinel (CodePoint.SimpleLowercase cp)) cp in
  let cp := CodePoint.set_SimpleTitlecase (sentinel (CodePoint.SimpleTitlecase cp)) cp in
  let cp := CodePoint.set_UppercaseMapping (sentinel (CodePoint.UppercaseMapping cp)) cp in
  let cp := CodePoint.set_LowercaseMapping (sentinel (CodePoint.LowercaseMapping cp)) cp in
  let cp := CodePoint.set_TitlecaseMapping (sentinel (CodePoint.TitlecaseMapping cp)) cp in
  let cp := CodePoint.set_SimpleCaseFolding (sentinel (CodePoint.SimpleCaseFolding cp)) cp in
  let cp := CodePoint.set_CaseFolding (sentinel (CodePoint.CaseFolding cp)) cp in
  cp.
Proof.
  cbv beta delta [Parser.NormalizeCodePoint].
  do 4 under_let.
  rewrite BidiMirroringGlyph_step; under_let.
  rewrite DecompositionMapping_step; under_let.
  rewrite SimpleUppercase_step; under_let.
  rewrite SimpleLowercase_step; under_let.
  rewrite SimpleTitlecase_step; under_let.
  rewrite UppercaseMapping_step; under_let.
  rewrite LowercaseMapping_step; under_let.
  rewrite TitlecaseMapping_step; under_let.
  rewrite SimpleCaseFolding_step; under_let.
  rewrite CaseFolding_step. reflexivity.
Qed.

End NormalizationFacts.

(** Rewrites a normalized record into its fields. *)
Ltac normal_form cp :=
  rewrite ?NormalizeCodePoint_updates; split_code_point cp;
  cbv -[sentinel String.eqb].

Section NormalizationFields.

Variable TrimSpace : string -> string.

Let Normalize := Parser.NormalizeCodePoint TrimSpace.

Lemma NormalizeCodePoint_CP (cp : CodePoint.t) :
  CodePoint.CP (Normalize cp) = CodePoint.CP cp.
Proof. unfold Normalize. normal_form cp. reflexivity. Qed.

Lemma NormalizeCodePoint_FirstCP (cp : CodePoint.t) :
  CodePoint.FirstCP (Normalize cp) = CodePoint.FirstCP cp.
Proof. unfold Normalize. normal_form cp. reflexivity. Qed.

Lemma NormalizeCodePoint_LastCP (cp : CodePoint.t) :
  CodePoint.LastCP (Normalize cp) = CodePoint.LastCP cp.
Proof. unfold Normalize. normal_form cp. reflexivity. Qed.

End NormalizationFields.

(** ** Flattening *)

Lemma fold_left_append1 {A B : Type} (f : A -> B) (l : list A) (acc : list B) :
  fold_left (fun acc x => Parser.append1 acc (f x)) l acc = acc ++ map f l.
Proof.
  revert acc. induction l as [|x l IH]; intros acc; simpl.
  - now rewrite app_nil_r.
  - rewrite IH. unfold Parser.append1. now rewrite <- app_assoc.
Qed.

Lemma getCodePointsFromRepertoire_eq (r : Repertoire.t) :
  Parser.getCodePointsFromRepertoire (Some r) =
  Repertoire.CodePoints r
  ++ map (CodePoint.set_Deprecated true) (Repertoire.Reserved r)
  ++ map (CodePoint.set_Noncharacter true) (Repertoire.Noncharacter r)
  ++ Repertoire.Surrogate r.
Proof.
  unfold Parser.getCodePointsFromRepertoire. cbv zeta.
  rewrite (fold_left_append1 (CodePoint.set_Deprecated true)).
  rewrite (fold_left_append1 (CodePoint.set_Noncharacter true)).
  simpl. now rewrite <- !app_assoc.
Qed.

Lemma ExtractAllCodePoints_eq (ucd : UCD.t) :
  Parser.ExtractAllCodePoints ucd =
  Parser.getCodePointsFromRepertoire (UCD.Repertoire ucd).
Proof.
  unfold Parser.ExtractAllCodePoints. now destruct (UCD.Repertoire ucd).
Qed.

Lemma set_Deprecated_spec (v : UCDBool) (cp : CodePoint.t) :
  CodePoint.Deprecated (CodePoint.set_Deprecated v cp) = v
  /\ CodePoint.set_Deprecated (CodePoint.Deprecated cp)
       (CodePoint.set_Deprecated v cp) = cp.
Proof. split_code_point cp. split; reflexivity. Qed.

Lemma set_Noncharacter_spec (v : UCDBool) (cp : CodePoint.t) :
  CodePoint.Noncharacter (CodePoint.set_Noncharacter v cp) = v
  /\ CodePoint.set_Noncharacter (CodePoint.Noncharacter cp)
       (CodePoint.set_Noncharacter v cp) = cp.
Proof. split_code_point cp. split; reflexivity. Qed.

Lemma Forall2_map_r {A B : Type} (R : A -> B -> Prop) (f : A -> B) (l : list A) :
  (forall x, R x (f x)) -> Forall2 R l (map f l).
Proof. intros H. induction l; simpl; constructor; auto. Qed.

(** C2.  Flattening marks every reserved-origin record as reserved and every
    noncharacter-origin record as a noncharacter, whatever the record said
    before, and passes the normal and surrogate records on as they are.  The
    program keeps the mark in the flag [Deprecated] (reserved) and in the flag
    [Noncharacter]: the flag is [true] in the output, and putting the old
    value of the flag back gives the input record, so nothing else changed. *)
Theorem flattening_marks_by_origin (r : Repertoire.t) :
  exists reserved' noncharacter',
    Parser.getCodePointsFromRepertoire (Some r) =
      Repertoire.CodePoints r ++ reserved' ++ noncharacter'
      ++ Repertoire.Surrogate r
    /\ Forall2 (fun cp cp' =>
                  CodePoint.Deprecated cp' = true
                  /\ CodePoint.set_Deprecated (CodePoint.Deprecated cp) cp' = cp)
         (Repertoire.Reserved r) reserved'
    /\ Forall2 (fun cp cp' =>
                  CodePoint.Noncharacter cp' = true
                  /\ CodePoint.set_Noncharacter (CodePoint.Noncharacter cp) cp'
                     = cp)
         (Repertoire.Noncharacter r) noncharacter'.
Proof.
  exists (map (CodePoint.set_Deprecated true) (Repertoire.Reserved r)),
         (map (CodePoint.set_Noncharacter true) (Repertoire.Noncharacter r)).
  split; [apply getCodePointsFromRepertoire_eq|].
  split; apply Forall2_map_r; intros cp.
  - apply set_Deprecated_spec.
  - apply set_Noncharacter_spec.
Qed.

(** C6.  The flattened sequence is the four subsequences one after the other
    in the order normal, reserved, noncharacter, surrogate, each in its own
    order (the reserved and noncharacter records carrying their mark), so its
    length is the sum of the four lengths; the pipeline's extraction step
    returns this very sequence. *)
Theorem flattening_concatenates (ucd : UCD.t) (r : Repertoire.t) :
  let flat := Parser.getCodePointsFromRepertoire (Some r) in
  flat =
    Repertoire.CodePoints r
    ++ map (CodePoint.set_Deprecated true) (Repertoire.Reserved r)
    ++ map (CodePoint.set_Noncharacter true) (Repertoire.Noncharacter r)
    ++ Repertoire.Surrogate r
  /\ map CodePoint.CP flat =
       map CodePoint.CP
         (Repertoire.CodePoints r ++ Repertoire.Reserved r
          ++ Repertoire.Noncharacter r ++ Repertoire.Surrogate r)
  /\ length flat =
       length (Repertoire.CodePoints r) + length (Repertoire.Reserved r)
       + length (Repertoire.Noncharacter r) + length (Repertoire.Surrogate r)
  /\ (UCD.Repertoire ucd = Some r -> Parser.ExtractAllCodePoints ucd = flat).
Proof.
  cbv zeta. rewrite getCodePointsFromRepertoire_eq.
  split; [reflexivity|]. split; [|split].
  - rewrite !map_app, !map_map. f_equal. f_equal; [|f_equal].
    + apply map_ext. intros cp. now split_code_point cp.
    + apply map_ext. intros cp. now split_code_point cp.
  - rewrite !length_app, !length_map. lia.
  - intros H. rewrite ExtractAllCodePoints_eq, H.
    apply getCodePointsFromRepertoire_eq.
Qed.

(** ** Validation *)

(** C3.  [ValidateCodePoint] rejects a record exactly when it has neither a
    single code value nor a range start, or has a range start without a range
    end; the first condition is tested first and answers with the
    missing-identity error, the second answers with the incomplete-range
    error.  For a record without a range start, acceptance is the same as a
    non-empty single code value. *)
Theorem validation_rejects_iff (cp : CodePoint.t) :
  let missing := CodePoint.CP cp = ""%string /\ CodePoint.FirstCP cp = ""%string in
  let incomplete :=
    CodePoint.FirstCP cp <> ""%string /\ CodePoint.LastCP cp = ""%string in
  (Parser.ValidateCodePoint cp <> None <-> missing \/ incomplete)
  /\ (missing ->
      Parser.ValidateCodePoint cp =
      Some (Errorf "code point must have either cp or first-cp"))
  /\ (~ missing -> incomplete ->
      Parser.ValidateCodePoint cp =
      Some (Errorf "code point with first-cp must also have last-cp"))
  /\ (CodePoint.FirstCP cp = ""%string ->
      (Parser.ValidateCodePoint cp = None <-> CodePoint.CP cp <> ""%string)).
Proof.
  cbv zeta. unfold Parser.ValidateCodePoint.
  destruct (String.eqb_spec (CodePoint.CP cp) "") as [Hc|Hc];
    destruct (String.eqb_spec (CodePoint.FirstCP cp) "") as [Hf|Hf];
    destruct (String.eqb_spec (CodePoint.LastCP cp) "") as [Hl|Hl];
    simpl; repeat split; try tauto; try congruence;
    try (intros; discriminate); intros [[? ?]|[? ?]]; congruence.
Qed.

Lemma accepted_identityPresent (cp : CodePoint.t) :
  accepted cp = true -> identityPresent cp.
Proof.
  unfold accepted, identityPresent, Parser.ValidateCodePoint.
  destruct (String.eqb_spec (CodePoint.CP cp) "") as [Hc|Hc];
    destruct (String.eqb_spec (CodePoint.FirstCP cp) "") as [Hf|Hf];
    destruct (String.eqb_spec (CodePoint.LastCP cp) "") as [Hl|Hl];
    simpl; intros H; try discriminate; split; tauto.
Qed.

(** ** Normalization *)

Section NormalizationProperties.

Variable TrimSpace : string -> string.

Let Normalize := Parser.NormalizeCodePoint TrimSpace.

Lemma NormalizeCodePoint_BidiMirroringGlyph (cp : CodePoint.t) :
  CodePoint.BidiMirroringGlyph (Normalize cp) = sentinel (CodePoint.BidiMirroringGlyph cp).
Proof. unfold Normalize. normal_form cp. reflexivity. Qed.

Lemma NormalizeCodePoint_DecompositionMapping (cp : CodePoint.t) :
  CodePoint.DecompositionMapping (Normalize cp) = sentinel (CodePoint.DecompositionMapping cp).
Proof. unfold Normalize. normal_form cp. reflexivity. Qed.

Lemma NormalizeCodePoint_SimpleUppercase (cp : CodePoint.t) :
  CodePoint.SimpleUppercase (Normalize cp) = sentinel (CodePoint.SimpleUppercase cp).
Proof. unfold Normalize. normal_form cp. reflexivity. Qed.

Lemma NormalizeCodePoint_SimpleLowercase (cp : CodePoint.t) :
  CodePoint.SimpleLowercase (Normalize cp) = sentinel (CodePoint.SimpleLowercase cp).
Proof. unfold Normalize. normal_form cp. reflexivity. Qed.

Lemma NormalizeCodePoint_SimpleTitlecase (cp : CodePoint.t) :
  CodePoint.SimpleTitlecase (Normalize cp) = sentinel (CodePoint.SimpleTitlecase cp).
Proof. unfold Normalize. normal_form cp. reflexivity. Qed.

Lemma NormalizeCodePoint_UppercaseMapping (cp : CodePoint.t) :
  CodePoint.UppercaseMapping (Normalize cp) = sentinel (CodePoint.UppercaseMapping cp).
Proof. unfold Normalize. normal_form cp. reflexivity. Qed.

Lemma NormalizeCodePoint_LowercaseMapping (cp : CodePoint.t) :
  CodePoint.LowercaseMapping (Normalize cp) = sentinel (CodePoint.LowercaseMapping cp).
Proof. unfold Normalize. normal_form cp. reflexivity. Qed.

Lemma NormalizeCodePoint_TitlecaseMapping (cp : CodePoint.t) :
  CodePoint.TitlecaseMapping (Normalize cp) = sentinel (CodePoint.TitlecaseMapping cp).
Proof. unfold Normalize. normal_form cp. reflexivity. Qed.

Lemma NormalizeCodePoint_SimpleCaseFolding (cp : CodePoint.t) :
  CodePoint.SimpleCaseFolding (Normalize cp) = sentinel (CodePoint.SimpleCaseFolding cp).
Proof. unfold Normalize. normal_form cp. reflexivity. Qed.

Lemma NormalizeCodePoint_CaseFolding (cp : CodePoint.t) :
  CodePoint.CaseFolding (Normalize cp) = sentinel (CodePoint.CaseFolding cp).
Proof. unfold Normalize. normal_form cp. reflexivity. Qed.

Lemma sentinel_rule (F : CodePoint.t -> string) (cp : CodePoint.t) :
  F (Normalize cp) = sentinel (F cp) ->
  (F cp = "#"%string -> F (Normalize cp) = ""%string)
  /\ (F cp <> "#"%string -> F (Normalize cp) = F cp).
Proof.
  intros ->. split; intros H.
  - now rewrite H.
  - now apply sentinel_other.
Qed.

(** C4.  In each of the mapping-type fields (mirroring glyph, decomposition
    mapping, simple uppercase, lowercase and titlecase, uppercase, lowercase
    and titlecase mapping, simple case folding, case folding: the ten fields
    of [sentinelFields]) normalization turns the value ["#"] into the empty
    string and leaves any other value as it is.  This holds of every record,
    accepted or not. *)
Theorem normalization_clears_sentinel (cp : CodePoint.t) :
  Forall (fun F : CodePoint.t -> string =>
            (F cp = "#"%string -> F (Normalize cp) = ""%string)
            /\ (F cp <> "#"%string -> F (Normalize cp) = F cp))
         sentinelFields.
Proof.
  unfold sentinelFields.
  repeat (constructor; [apply sentinel_rule|]); [..|constructor].
  - apply NormalizeCodePoint_BidiMirroringGlyph.
  - apply NormalizeCodePoint_DecompositionMapping.
  - apply NormalizeCodePoint_SimpleUppercase.
  - apply NormalizeCodePoint_SimpleLowercase.
  - apply NormalizeCodePoint_SimpleTitlecase.
  - apply NormalizeCodePoint_UppercaseMapping.
  - apply NormalizeCodePoint_LowercaseMapping.
  - apply NormalizeCodePoint_TitlecaseMapping.
  - apply NormalizeCodePoint_SimpleCaseFolding.
  - apply NormalizeCodePoint_CaseFolding.
Qed.

Hypothesis TrimSpace_twice : forall s, TrimSpace (TrimSpace s) = TrimSpace s.

(** C5.  Normalization is idempotent, given that trimming a trimmed string
    changes nothing (as [strings.TrimSpace] promises): normalizing a
    normalized record gives the same record.  This holds of every record, so
    of every accepted one. *)
Theorem normalization_idempotent (cp : CodePoint.t) :
  Normalize (Normalize cp) = Normalize cp.
Proof.
  unfold Normalize. normal_form cp.
  now rewrite !sentinel_idempotent, !TrimSpace_twice.
Qed.

End NormalizationProperties.

(** ** The concrete [TrimSpace] *)

Module StringsFacts.

Import Strings.

Lemma trimLeft_noLeadingSpace (s : string) : noLeadingSpace (trimLeft s).
Proof.
  induction s as [|c s IH]; simpl; [exact I|].
  destruct (asciiSpace c) eqn:E; [exact IH | exact E].
Qed.

Lemma trimLeft_fixed (s : string) : noLeadingSpace s -> trimLeft s = s.
Proof. destruct s as [|c s]; simpl; [reflexivity|]. now intros ->. Qed.

Lemma trimRight_noLeadingSpace (s : string) :
  noLeadingSpace s -> noLeadingSpace (trimRight s).
Proof.
  destruct s as [|c s]; simpl; [trivial|]. intros H.
  destruct (trimRight s); [rewrite H|]; exact H.
Qed.

Lemma trimRight_idempotent (s : string) : trimRight (trimRight s) = trimRight s.
Proof.
  induction s as [|c s IH]; simpl; [reflexivity|].
  destruct (trimRight s) as [|d t] eqn:E.
  - destruct (asciiSpace c) eqn:Ec; simpl; [reflexivity|now rewrite Ec].
  - change (trimRight (String c (String d t))) with
      (match trimRight (String d t) with
       | EmptyString =>
         if asciiSpace c then EmptyString else String c EmptyString
       | r => String c r
       end).
    now rewrite IH.
Qed.

Lemma TrimSpace_idempotent (s : string) : TrimSpace (TrimSpace s) = TrimSpace s.
Proof.
  unfold TrimSpace.
  rewrite (trimLeft_fixed (trimRight (trimLeft s))).
  - apply trimRight_idempotent.
  - apply trimRight_noLeadingSpace, trimLeft_noLeadingSpace.
Qed.

End StringsFacts.

Lemma normalization_idempotent_witness :
  (forall s, Strings.TrimSpace (Strings.TrimSpace s) = Strings.TrimSpace s)
  /\ Parser.NormalizeCodePoint Strings.TrimSpace
       (Parser.NormalizeCodePoint Strings.TrimSpace rawLatinA)
     = Parser.NormalizeCodePoint Strings.TrimSpace rawLatinA.
Proof.
  split.
  - exact StringsFacts.TrimSpace_idempotent.
  - exact (normalization_idempotent Strings.TrimSpace
             StringsFacts.TrimSpace_idempotent rawLatinA).
Defined.

(** ** The validate-and-normalize stage *)

Section ProcessProperties.

Variable TrimSpace : string -> string.

Lemma process_loop (l acc : list CodePoint.t) :
  fold_left
    (fun validCodePoints cp =>
       match Parser.ValidateCodePoint cp with
       | Some _ => validCodePoints
       | None =>
         let cp := Parser.NormalizeCodePoint TrimSpace cp in
         Parser.append1 validCodePoints cp
       end) l acc
  = acc ++ map (Parser.NormalizeCodePoint TrimSpace) (filter accepted l).
Proof.
  revert acc. induction l as [|cp l IH]; intros acc; simpl.
  - now rewrite app_nil_r.
  - rewrite IH. unfold accepted.
    destruct (Parser.ValidateCodePoint cp); [reflexivity|].
    simpl. unfold Parser.append1. now rewrite <- app_assoc.
Qed.

Lemma ProcessUCDForMongoDB_eq (ucd : UCD.t) :
  Parser.ProcessUCDForMongoDB TrimSpace ucd =
  (map (Parser.NormalizeCodePoint TrimSpace)
     (filter accepted (Parser.ExtractAllCodePoints ucd)),
   Parser.ExtractBlocks ucd, None).
Proof. unfold Parser.ProcessUCDForMongoDB. now rewrite process_loop. Qed.

(** C9.  [ProcessUCDForMongoDB] never fails: for every document its error
    result is [nil], its code points are the accepted records of the
    flattened sequence, each normalized, in their order, and its blocks are
    the extracted blocks.  A rejected record is left out and nothing else
    changes: the records around it come out as they would without it. *)
Theorem process_never_fails (ucd : UCD.t) :
  Parser.ProcessUCDForMongoDB TrimSpace ucd =
    (map (Parser.NormalizeCodePoint TrimSpace)
       (filter accepted (Parser.ExtractAllCodePoints ucd)),
     Parser.ExtractBlocks ucd, None)
  /\ forall before after rejected,
       Parser.ExtractAllCodePoints ucd = before ++ rejected :: after ->
       accepted rejected = false ->
       fst (fst (Parser.ProcessUCDForMongoDB TrimSpace ucd)) =
       map (Parser.NormalizeCodePoint TrimSpace)
         (filter accepted before ++ filter accepted after).
Proof.
  split; [apply ProcessUCDForMongoDB_eq|].
  intros before after rejected H Hr.
  rewrite ProcessUCDForMongoDB_eq, H. simpl.
  rewrite filter_app. simpl. now rewrite Hr.
Qed.

Lemma stampOf_identityPresent (now : Time) (cp d : CodePoint.t) :
  stampOf now cp d -> identityPresent cp -> identityPresent d.
Proof.
  intros (_ & _ & <-). unfold identityPresent.
  now split_code_point d.
Qed.

(** C1, as the program has it.  Every record in the output of
    [ProcessUCDForMongoDB] has a single code value or a range start (never
    neither), and has a range end whenever it has a range start; so has every
    document [SaveCodePoints] makes of the output.  A record may have both a
    single code value and a range. *)
Theorem accepted_records_have_identity (ucd : UCD.t) :
  let output := fst (fst (Parser.ProcessUCDForMongoDB TrimSpace ucd)) in
  Forall identityPresent output
  /\ forall now last,
       Forall identityPresent (stampedCodePoints now last output).
Proof.
  cbv zeta.
  assert (H : Forall identityPresent
                (fst (fst (Parser.ProcessUCDForMongoDB TrimSpace ucd)))).
  { rewrite ProcessUCDForMongoDB_eq. simpl.
    apply Forall_forall. intros cp H.
    apply in_map_iff in H. destruct H as (raw & <- & H).
    apply filter_In in H. destruct H as [_ H].
    apply accepted_identityPresent in H. unfold identityPresent in *.
    now rewrite NormalizeCodePoint_CP, NormalizeCodePoint_FirstCP,
      NormalizeCodePoint_LastCP. }
  split; [exact H|]. intros now last.
  revert last. induction H as [|cp rest Hcp Hrest IH]; intros last; simpl.
  - constructor.
  - constructor; [|apply IH].
    refine (stampOf_identityPresent now cp _ _ Hcp).
    unfold stampOf. now split_code_point cp.
Qed.

End ProcessProperties.

(** C1, as the specification words it, fails: a record with both a single
    code value and a complete range passes validation and is part of the
    output. *)
Lemma exactly_one_identity_fails :
  ~ (forall ucd cp,
       In cp (fst (fst (Parser.ProcessUCDForMongoDB Strings.TrimSpace ucd))) ->
       exactlyOneIdentity cp
       /\ (CodePoint.FirstCP cp <> ""%string -> CodePoint.LastCP cp <> ""%string)).
Proof.
  intros H.
  destruct (H (ucdOf [bothIdentities] [] [] []) bothIdentities) as [E _].
  - vm_compute. left. reflexivity.
  - destruct E as [(_ & E & _)|(E & _)]; discriminate E.
Qed.

(** ** The store *)

Import Mongo Database.

(** Runs the monadic plumbing of a driver call. *)
Ltac run_call :=
  unfold GetCodePointByCP, FindOneDecode, InsertMany, DeleteMany, Drop,
    DropAll, CreateMany, InsertOne, bind, ret, request, update, read,
    time_Now, NewObjectID, nextFault in *; simpl in *.

(** C10.  Looking up a code value no document has is not an error: if the
    driver call itself does not fail and no stored document has the code
    value, [GetCodePointByCP] returns a [nil] record and a [nil] error.  Its
    error is non-[nil] exactly when the driver call failed with an error other
    than [mongo.ErrNoDocuments], and then the record is [nil]; a record it
    returns is a stored document with the code value asked for.  The store is
    left as it was. *)
Theorem lookup_absent_is_no_error (cp : string) (w : World) :
  let result := fst (GetCodePointByCP cp w) in
  let w' := snd (GetCodePointByCP cp w) in
  (nextFault w = None ->
   (forall d, In d (docs (CodePoints w)) -> CodePoint.CP d <> cp) ->
   result = (None, None))
  /\ (snd result <> None <->
      exists f, nextFault w = Some f /\ fault_err f <> ErrNoDocuments)
  /\ (snd result <> None -> fst result = None)
  /\ (forall d, nextFault w = None -> fst result = Some d ->
      In d (docs (CodePoints w)) /\ CodePoint.CP d = cp)
  /\ (ucd w' = ucd w /\ CodePoints w' = CodePoints w /\ blocks w' = blocks w).
Proof.
  cbv zeta. destruct w as [u c b t i fs cs]. run_call.
  assert (Hfind : forall o : option CodePoint.t,
            find (fun d => (CodePoint.CP d =? cp)%string) (docs c) = o ->
            match o with
            | Some d => In d (docs c) /\ CodePoint.CP d = cp
            | None => forall d, In d (docs c) -> CodePoint.CP d <> cp
            end).
  { intros [d|] E.
    - apply find_some in E. now rewrite String.eqb_eq in E.
    - intros d Hin Heq. apply (find_none _ _ E) in Hin.
      apply String.eqb_neq in Hin. contradiction. }
  destruct fs as [|[f|] fs]; simpl.
  2: { (* the call fails with [fault_err f] *)
    destruct (fault_err f) eqn:Ef; simpl; repeat split;
      try congruence; intros;
      try match goal with
          | H : exists _, _ |- _ => destruct H as [? [[= <-] ?]]
          end;
      try congruence; try (exists f; split; congruence). }
  (* no failure in store: the call succeeds *)
  all: specialize (Hfind _ eq_refl);
    destruct (find _ (docs c)) as [d|]; simpl;
    repeat split; try congruence; intros;
    try match goal with
        | H : exists _, _ |- _ => destruct H as [? [? ?]]
        | H : Some _ = Some _ |- _ => injection H as <-
        | H : forall _, In _ _ -> _ <> _ |- _ =>
          now elim (H d (proj1 Hfind) (proj2 Hfind))
        end;
    try congruence; try tauto.
Qed.


(** *** Batches *)

Lemma written_app {A : Type} (c : Collection A) (a b : list A) :
  written (written c a) b = written c (a ++ b).
Proof.
  destruct a as [|x a]; [reflexivity|].
  destruct b as [|y b]; simpl.
  - now rewrite app_nil_r.
  - now rewrite <- app_assoc.
Qed.

Lemma batchSize_pos : 0 < batchSize.
Proof. unfold batchSize. lia. Qed.

Lemma batchSizes_zero : batchSizes 0 = [].
Proof. reflexivity. Qed.

Lemma batchSizes_small (m : nat) :
  0 < m -> m <= batchSize -> batchSizes m = [m] /\ batchSizes (m - batchSize) = [].
Proof.
  intros H0 H. replace (m - batchSize) with 0 by lia. split; [|reflexivity].
  unfold batchSizes. destruct (Nat.eq_dec m batchSize) as [->|Hne].
  - rewrite Nat.div_same, Nat.Div0.mod_same by (pose proof batchSize_pos; lia).
    reflexivity.
  - rewrite Nat.div_small, Nat.mod_small by lia. simpl.
    destruct (Nat.eqb_spec m 0); [lia|reflexivity].
Qed.

Lemma batchSizes_large (m : nat) :
  batchSize <= m -> batchSizes m = batchSize :: batchSizes (m - batchSize).
Proof.
  intros H. pose proof batchSize_pos as Hp.
  set (m' := m - batchSize).
  assert (E : m = m' + 1 * batchSize) by (unfold m'; lia).
  clearbody m'. subst m. unfold batchSizes.
  rewrite Nat.div_add, Nat.Div0.mod_add by lia.
  rewrite Nat.add_1_r. reflexivity.
Qed.

Lemma batchSizes_step (m : nat) :
  0 < m -> batchSizes m = Nat.min batchSize m :: batchSizes (m - batchSize).
Proof.
  intros H. destruct (Nat.le_gt_cases batchSize m) as [Hle|Hgt].
  - rewrite Nat.min_l by exact Hle. now apply batchSizes_large.
  - rewrite Nat.min_r by lia.
    destruct (batchSizes_small m) as [-> ->]; [lia..|reflexivity].
Qed.

Lemma batchEnd_eq (n i : nat) : batchEnd n i = Nat.min n (i + batchSize).
Proof.
  unfold batchEnd. cbv zeta.
  destruct (Nat.ltb_spec n (i + batchSize)); lia.
Qed.

Lemma length_slice {A : Type} (s : list A) (i j : nat) :
  j <= length s -> length (slice s i j) = j - i.
Proof. intros H. unfold slice. rewrite length_firstn, length_skipn. lia. Qed.

Lemma slice_skipn {A : Type} (s : list A) (i : nat) :
  slice s i (batchEnd (length s) i) ++ skipn (i + batchSize) s = skipn i s.
Proof.
  unfold slice. rewrite batchEnd_eq.
  replace (skipn (i + batchSize) s) with (skipn batchSize (skipn i s))
    by (rewrite skipn_skipn; f_equal; lia).
  destruct (Nat.le_gt_cases (i + batchSize) (length s)) as [H|H].
  - rewrite Nat.min_r by lia.
    replace (i + batchSize - i) with batchSize by lia.
    apply firstn_skipn.
  - rewrite Nat.min_l by lia.
    rewrite (skipn_all2 (n := batchSize)) by (rewrite length_skipn; lia).
    rewrite app_nil_r. apply firstn_all2. rewrite length_skipn. lia.
Qed.

Lemma insertBatches_step (documents : list CodePoint.t) (i : nat) (w : World) :
  insertBatches documents i w =
  if (i <? length documents)%nat then
    match InsertMany CodePointsH
            (slice documents i (batchEnd (length documents) i)) w with
    | (Some err, w') =>
      (Some (ErrorfW
               ("failed to insert code points batch " ++ itoa i ++ "-"
                ++ itoa (batchEnd (length documents) i) ++ ": " ++ Error err)%string
               err), w')
    | (None, w') => insertBatches documents (i + batchSize) w'
    end
  else (None, w).
Proof.
  rewrite insertBatches_equation_1. unfold insertBatches_unfold_clause_1.
  destruct (lt_dec i (length documents)) as [H|H].
  - rewrite (proj2 (Nat.ltb_lt _ _) H).
    destruct (InsertMany _ _ w) as [[err|] w']; reflexivity.
  - rewrite (proj2 (Nat.ltb_nlt _ _) H). reflexivity.
Qed.

Opaque batchSize.

Lemma afterBatches_nil (w : World) : afterBatches [] [] (faults w) w = w.
Proof. destruct w. unfold afterBatches. simpl. now rewrite app_nil_r. Qed.

Lemma afterBatches_compose ds1 ds2 s1 sizes2 fs1 fs2 (w : World) :
  afterBatches ds2 sizes2 fs2 (afterBatches ds1 [s1] fs1 w)
  = afterBatches (ds1 ++ ds2) (s1 :: sizes2) fs2 w.
Proof.
  unfold afterBatches. simpl. now rewrite written_app, <- app_assoc.
Qed.

Lemma InsertMany_CodePoints (batch : list CodePoint.t) (w : World) :
  batch <> [] ->
  InsertMany CodePointsH batch w =
  match nextFault w with
  | None => (None, afterBatches batch [length batch] (tl (faults w)) w)
  | Some f =>
    (Some (fault_err f),
     afterBatches (firstn (fault_partial f) batch) [length batch]
       (tl (faults w)) w)
  end.
Proof.
  intros H. destruct batch as [|d batch]; [congruence|].
  destruct w as [u c b t i fs cs]. run_call.
  destruct fs as [|[f|] fs]; reflexivity.
Qed.

Lemma faultFree_nextFault (w : World) : faultFree w -> nextFault w = None.
Proof.
  unfold faultFree, nextFault. intros H.
  destruct (faults w) as [|[f|] fs]; try reflexivity.
  inversion H; discriminate.
Qed.

Lemma Forall_tl {A : Type} (P : A -> Prop) (l : list A) :
  Forall P l -> Forall P (tl l).
Proof. intros H. destruct H; simpl; [constructor|assumption]. Qed.

Lemma Forall_skipn' {A : Type} (P : A -> Prop) (k : nat) (l : list A) :
  Forall P l -> Forall P (skipn k l).
Proof.
  revert l. induction k; intros l H; simpl; [assumption|].
  destruct H; [constructor|auto].
Qed.

Lemma skipn_tl {A : Type} (k : nat) (l : list A) :
  skipn k (tl l) = skipn (S k) l.
Proof. destruct l; simpl; [apply skipn_nil|reflexivity]. Qed.

Lemma slice_nonempty {A : Type} (s : list A) (i : nat) :
  i < length s -> slice s i (batchEnd (length s) i) <> [].
Proof.
  intros H E. apply (f_equal (@length A)) in E.
  rewrite length_slice in E by (rewrite batchEnd_eq; lia).
  rewrite batchEnd_eq in E. pose proof batchSize_pos. simpl in E. lia.
Qed.

Lemma insertBatches_ok (m : nat) : forall documents i w,
  length documents - i <= m -> faultFree w ->
  insertBatches documents i w =
  (None,
   afterBatches (skipn i documents) (batchSizes (length documents - i))
     (skipn (length (batchSizes (length documents - i))) (faults w)) w).
Proof.
  induction m as [|m IH]; intros documents i w Hm Hw;
    rewrite insertBatches_step.
  - rewrite (proj2 (Nat.ltb_ge _ _)) by lia.
    replace (length documents - i) with 0 by lia.
    rewrite skipn_all2 by lia. rewrite batchSizes_zero. simpl.
    now rewrite afterBatches_nil.
  - destruct (Nat.ltb_spec i (length documents)) as [Hi|Hi].
    + rewrite InsertMany_CodePoints by now apply slice_nonempty.
      rewrite (faultFree_nextFault w Hw).
      rewrite IH; [| simpl; pose proof batchSize_pos; lia
                   | now apply Forall_tl].
      rewrite afterBatches_compose. simpl faults. f_equal.
      rewrite slice_skipn, skipn_tl.
      rewrite (batchSizes_step (length documents - i)) by lia.
      rewrite length_slice by (rewrite batchEnd_eq; lia).
      rewrite batchEnd_eq.
      replace (Nat.min (length documents) (i + batchSize) - i)
        with (Nat.min batchSize (length documents - i)) by lia.
      replace (length documents - (i + batchSize))
        with (length documents - i - batchSize) by lia.
      reflexivity.
    + replace (length documents - i) with 0 by lia.
      rewrite skipn_all2 by lia. rewrite batchSizes_zero. simpl.
      now rewrite afterBatches_nil.
Qed.

Lemma firstn_plus {A : Type} (a b : nat) : forall l : list A,
  firstn (a + b) l = firstn a l ++ firstn b (skipn a l).
Proof.
  induction a as [|a IH]; intros [|x l]; simpl;
    try reflexivity; [now rewrite firstn_nil | now rewrite IH].
Qed.

Lemma slice_app {A : Type} (s : list A) (i j l : nat) :
  i <= j -> j <= l -> slice s i j ++ slice s j l = slice s i l.
Proof.
  intros Hij Hjl. unfold slice.
  replace (skipn j s) with (skipn (j - i) (skipn i s))
    by (rewrite skipn_skipn; f_equal; lia).
  replace (l - i) with ((j - i) + (l - j)) by lia.
  rewrite firstn_plus. reflexivity.
Qed.

Lemma slice_empty {A : Type} (s : list A) (i : nat) : slice s i i = [].
Proof. unfold slice. now rewrite Nat.sub_diag. Qed.

Lemma insertBatches_fails (k : nat) : forall documents i w f rest,
  faults w = repeat None k ++ Some f :: rest ->
  i + k * batchSize < length documents ->
  let j := i + k * batchSize in
  let end_ := batchEnd (length documents) j in
  insertBatches documents i w =
  (Some (batchError j end_ (fault_err f)),
   afterBatches
     (slice documents i j ++ firstn (fault_partial f) (slice documents j end_))
     (repeat batchSize k ++ [end_ - j]) rest w).
Proof.
  induction k as [|k IH]; intros documents i w f rest Hf Hlt; cbv zeta;
    rewrite insertBatches_step;
    rewrite (proj2 (Nat.ltb_lt i (length documents))) by lia;
    rewrite InsertMany_CodePoints by (apply slice_nonempty; lia);
    unfold nextFault; rewrite Hf; cbn [repeat app tl].
  - change (0 * batchSize) with 0 in *. rewrite ?Nat.add_0_r in *.
    rewrite slice_empty. simpl app.
    rewrite length_slice by (rewrite batchEnd_eq; lia). reflexivity.
  - rewrite (IH documents (i + batchSize) _ f rest); [|reflexivity|simpl; lia].
    cbv zeta. rewrite afterBatches_compose.
    replace (i + batchSize + k * batchSize) with (i + S k * batchSize) by lia.
    f_equal. f_equal.
    + rewrite app_assoc. f_equal.
      replace (batchEnd (length documents) i) with (i + batchSize)
        by (rewrite batchEnd_eq; simpl in Hlt; lia).
      apply slice_app; simpl; lia.
    + rewrite length_slice by (rewrite batchEnd_eq; lia).
      rewrite batchEnd_eq. simpl in Hlt.
      replace (Nat.min (length documents) (i + batchSize) - i)
        with batchSize by lia.
      reflexivity.
Qed.

(** *** Identities and timestamps *)

Lemma stampCodePoints_eq (now : Time) : forall codePoints w,
  stampCodePoints now codePoints w =
  (stampedCodePoints now (lastID w) codePoints,
   mkWorld (ucd w) (CodePoints w) (blocks w) (clock w)
     (lastID w + N.of_nat (length codePoints))%N (faults w) (calls w)).
Proof.
  induction codePoints as [|cp rest IH]; intros w.
  - destruct w. simpl. unfold ret. now rewrite N.add_0_r.
  - cbn [stampCodePoints stampedCodePoints length].
    unfold bind, NewObjectID, ret. rewrite IH.
    cbn [ucd CodePoints blocks clock lastID faults calls].
    do 2 f_equal. rewrite Nat2N.inj_succ. lia.
Qed.

Lemma stampedCodePoints_stampOf (now : Time) : forall codePoints last,
  Forall2 (stampOf now) codePoints (stampedCodePoints now last codePoints).
Proof.
  induction codePoints as [|cp rest IH]; intros last; simpl; constructor.
  - unfold stampOf. split_code_point cp. repeat split.
  - apply IH.
Qed.

Lemma stampedCodePoints_ID (now : Time) : forall codePoints last,
  map CodePoint.ID (stampedCodePoints now last codePoints)
  = map (fun k => (last + N.of_nat k)%N) (seq 1 (length codePoints)).
Proof.
  induction codePoints as [|cp rest IH]; intros last; simpl; [reflexivity|].
  f_equal.
  - split_code_point cp. simpl. lia.
  - rewrite IH, <- (seq_shift (length rest) 1), map_map.
    apply map_ext. intros k. lia.
Qed.

Lemma stampedCodePoints_fresh (now : Time) (codePoints : list CodePoint.t)
    (last : ObjectID) :
  NoDup (map CodePoint.ID (stampedCodePoints now last codePoints))
  /\ Forall (fun d => (last < CodePoint.ID d)%N)
       (stampedCodePoints now last codePoints).
Proof.
  split.
  - rewrite stampedCodePoints_ID.
    apply Injective_map_NoDup; [|apply seq_NoDup].
    intros a b H. lia.
  - apply Forall_forall. intros d Hd.
    apply (in_map CodePoint.ID) in Hd. rewrite stampedCodePoints_ID in Hd.
    apply in_map_iff in Hd. destruct Hd as (k & <- & Hk).
    apply in_seq in Hk. lia.
Qed.

Lemma length_stampedCodePoints (now : Time) : forall codePoints last,
  length (stampedCodePoints now last codePoints) = length codePoints.
Proof. induction codePoints; intros; simpl; [reflexivity|now f_equal]. Qed.

(** *** [SaveCodePoints] *)

Lemma DeleteMany_CodePoints_ok (w : World) :
  nextFault w = None ->
  DeleteMany CodePointsH w =
  (None,
   mkWorld (ucd w) (emptied (CodePoints w)) (blocks w) (clock w) (lastID w)
     (tl (faults w)) (calls w ++ [CallDeleteMany "code_points"])).
Proof.
  destruct w as [u c b t i fs cs]. run_call.
  destruct fs as [|[f|] fs]; intros H; try discriminate; reflexivity.
Qed.

Lemma SaveCodePoints_inserts (codePoints : list CodePoint.t) (w : World) :
  codePoints <> [] -> nextFault w = None ->
  SaveCodePoints codePoints w =
  insertBatches (stampedCodePoints (clock w) (lastID w) codePoints) 0
    (readyToInsert (length codePoints) w).
Proof.
  intros Hne Hf. unfold SaveCodePoints.
  destruct codePoints as [|cp rest]; [congruence|].
  change (length (cp :: rest) =? 0)%nat with false. cbv iota.
  unfold bind at 1. rewrite DeleteMany_CodePoints_ok by exact Hf.
  unfold bind, time_Now. cbn [clock lastID ucd CodePoints blocks faults calls].
  rewrite stampCodePoints_eq. reflexivity.
Qed.

Lemma docs_written_emptied {A : Type} (c : Collection A) (ds : list A) :
  docs (written (emptied c) ds) = ds.
Proof. destruct c, ds; reflexivity. Qed.

Lemma slice_from_zero {A : Type} (s : list A) (j : nat) :
  slice s 0 j = firstn j s.
Proof. unfold slice. now rewrite Nat.sub_0_r. Qed.

Lemma Forall_removelast {A : Type} (P : A -> Prop) (l : list A) :
  Forall P l -> Forall P (removelast l).
Proof.
  induction 1 as [|x l Hx Hl IH]; simpl; [constructor|].
  destruct l; [constructor|]. constructor; assumption.
Qed.

Lemma batchSizes_spec (n : nat) :
  list_sum (batchSizes n) = n
  /\ Forall (fun s => 0 < s <= batchSize) (batchSizes n)
  /\ Forall (fun s => s = batchSize) (removelast (batchSizes n)).
Proof.
  pose proof batchSize_pos as Hp. unfold batchSizes.
  pose proof (Nat.div_mod_eq n batchSize) as E.
  pose proof (Nat.mod_upper_bound n batchSize ltac:(lia)) as Hm.
  set (q := n / batchSize) in *. set (r := n mod batchSize) in *.
  assert (Hs : list_sum (repeat batchSize q) = batchSize * q).
  { clear. induction q; simpl; lia. }
  assert (Hr : Forall (fun s => s = batchSize) (repeat batchSize q)).
  { apply Forall_forall. intros s Hs'. now apply repeat_spec in Hs'. }
  destruct (Nat.eqb_spec r 0) as [H0|H0].
  - rewrite app_nil_r. repeat split.
    + lia.
    + eapply Forall_impl; [|exact Hr]. simpl. intros; lia.
    + now apply Forall_removelast.
  - repeat split.
    + rewrite list_sum_app. simpl. lia.
    + apply Forall_app. split.
      * eapply Forall_impl; [|exact Hr]. simpl. intros; lia.
      * constructor; [lia|constructor].
    + rewrite removelast_last. exact Hr.
Qed.

Transparent batchSize.

(** C7.  [SaveCodePoints] does nothing on empty input.  On non-empty input
    whose delete succeeds, it first deletes every document, gives each
    record a new identity (pairwise distinct, never handed out before) and
    the timestamps of one clock reading, changing nothing else, and inserts
    the documents in order in batches of 1000 (only the last batch may be
    smaller).  If every insert succeeds the collection holds exactly the
    documents.  If the insert of batch number [k] fails, no further call is
    made, the error names the positions [1000 k] to [min (1000 k + 1000) n]
    and wraps the driver's error, and the collection holds all documents of
    the batches before it (followed by what the failing call had written):
    nothing is rolled back. *)
Theorem save_code_points_protocol :
  batchSize = 1000
  /\ (forall w, SaveCodePoints [] w = (None, w))
  /\ (forall codePoints w,
        codePoints <> [] -> nextFault w = None ->
        let n := length codePoints in
        let documents := stampedCodePoints (clock w) (lastID w) codePoints in
        let ready := readyToInsert n w in
        docs (CodePoints ready) = []
        /\ Forall2 (stampOf (clock w)) codePoints documents
        /\ NoDup (map CodePoint.ID documents)
        /\ Forall (fun d => (lastID w < CodePoint.ID d)%N) documents
        /\ list_sum (batchSizes n) = n
        /\ Forall (fun s => 0 < s <= batchSize) (batchSizes n)
        /\ Forall (fun s => s = batchSize) (removelast (batchSizes n))
        /\ (faultFree w ->
            let w' :=
              afterBatches documents (batchSizes n)
                (skipn (length (batchSizes n)) (faults ready)) ready in
            SaveCodePoints codePoints w = (None, w')
            /\ docs (CodePoints w') = documents
            /\ calls w' =
               calls w ++ CallDeleteMany "code_points"
               :: map (CallInsertMany "code_points") (batchSizes n))
        /\ (forall k f rest,
              faults ready = repeat None k ++ Some f :: rest ->
              k * batchSize < n ->
              let j := k * batchSize in
              let end_ := Nat.min n (j + batchSize) in
              let stored :=
                firstn j documents
                ++ firstn (fault_partial f) (slice documents j end_) in
              let w' :=
                afterBatches stored (repeat batchSize k ++ [end_ - j]) rest
                  ready in
              SaveCodePoints codePoints w =
                (Some (batchError j end_ (fault_err f)), w')
              /\ docs (CodePoints w') = stored
              /\ calls w' =
                 calls w ++ CallDeleteMany "code_points"
                 :: map (CallInsertMany "code_points")
                      (repeat batchSize k ++ [end_ - j]))).
Proof.
  split; [reflexivity|]. split; [reflexivity|].
  intros codePoints w Hne Hf. cbv zeta.
  destruct (stampedCodePoints_fresh (clock w) codePoints (lastID w)) as [Hnd Hfr].
  destruct (batchSizes_spec (length codePoints)) as (Hsum & Hsz & Hfull).
  split; [now destruct w as [u [|] b t i fs cs]|].
  split; [apply stampedCodePoints_stampOf|].
  do 5 (split; [assumption|]).
  split.
  - intros Hw. rewrite SaveCodePoints_inserts by assumption.
    rewrite (insertBatches_ok (length codePoints));
      [| rewrite length_stampedCodePoints; lia
       | apply Forall_tl, Hw ].
    rewrite length_stampedCodePoints, Nat.sub_0_r.
    split; [reflexivity|]. split.
    + apply docs_written_emptied.
    + simpl. now rewrite <- app_assoc.
  - intros k f rest Hk Hlt.
    rewrite SaveCodePoints_inserts by assumption.
    rewrite (insertBatches_fails k _ 0 _ f rest Hk);
      [| rewrite length_stampedCodePoints; simpl; lia ].
    cbv zeta. simpl Nat.add.
    rewrite slice_from_zero, batchEnd_eq, length_stampedCodePoints.
    split; [reflexivity|]. split.
    + apply docs_written_emptied.
    + simpl. now rewrite <- app_assoc.
Qed.

(** *** Runs without failures *)

Lemma faultFree_head (fs : list (option Fault)) :
  Forall (fun o : option Fault => o = None) fs ->
  match fs with
  | Some f :: _ => Some f
  | _ => None
  end = None.
Proof. intros H. destruct H as [|[f|] fs H]; [reflexivity|discriminate|reflexivity]. Qed.

Lemma nsNotFound_recognized :
  isNamespaceNotFoundError
    (Some (DriverError "(NamespaceNotFound) ns not found")) = true.
Proof. vm_compute. reflexivity. Qed.

Lemma withIndexes_codePoints : withIndexes [] codePointIndexes = codePointIndexes.
Proof. vm_compute. reflexivity. Qed.

Lemma withIndexes_blocks : withIndexes [] blockIndexes = blockIndexes.
Proof. vm_compute. reflexivity. Qed.

(** Runs a sequence of driver calls none of which fails: [H] says that no
    failure is in store. *)
Ltac run_fault_free H :=
  unfold Drop, DeleteMany, InsertMany, InsertOne, DropAll, CreateMany, bind,
    ret, request, update, read, time_Now, NewObjectID;
  repeat first
    [ progress
        cbn -[withIndexes codePointIndexes blockIndexes
              isNamespaceNotFoundError String.append N.succ Z.add]
    | rewrite nsNotFound_recognized
    | rewrite faultFree_head by (repeat apply Forall_tl; exact H) ].

Lemma CreateIndexes_ok (w : World) :
  faultFree w ->
  exists w',
    CreateIndexes w = (None, w') /\ faultFree w'
    /\ ucd w' = ucd w
    /\ CodePoints w' = Present (docs (CodePoints w)) codePointIndexes
    /\ blocks w' = Present (docs (blocks w)) blockIndexes.
Proof.
  destruct w as [u c b t i fs cs]. unfold faultFree. simpl. intros H.
  unfold CreateIndexes. cbv zeta.
  destruct c as [|cd ci]; destruct b as [|bd bi]; run_fault_free H;
    change (withIndexes [] codePointIndexes) with codePointIndexes;
    change (withIndexes [] blockIndexes) with blockIndexes;
    (eexists; split; [reflexivity|]; simpl;
     split; [repeat apply Forall_tl; exact H|]; repeat split).
Qed.

Lemma SaveUCD_ok (metadata : UCD.t) (w : World) :
  faultFree w ->
  exists w',
    SaveUCD metadata w = (None, w') /\ faultFree w'
    /\ ucd w' =
       Present
         [UCD.mk (N.succ (lastID w)) "" (UCD.Description metadata) None None
            (clock w) (clock w + 1)%Z (UCD.Version metadata)] []
    /\ CodePoints w' = CodePoints w
    /\ blocks w' = blocks w.
Proof.
  destruct w as [u c b t i fs cs]. unfold faultFree. simpl. intros H.
  unfold SaveUCD. run_fault_free H.
  eexists; split; [reflexivity|]; simpl.
  split; [repeat apply Forall_tl; exact H|]. repeat split.
Qed.

Lemma SaveCodePoints_ok (codePoints : list CodePoint.t) (w : World) :
  faultFree w ->
  exists w',
    SaveCodePoints codePoints w = (None, w') /\ faultFree w'
    /\ ucd w' = ucd w
    /\ CodePoints w' =
       match codePoints with
       | [] => CodePoints w
       | _ =>
         Present (stampedCodePoints (clock w) (lastID w) codePoints)
           (indexes (CodePoints w))
       end
    /\ blocks w' = blocks w.
Proof.
  intros H. destruct codePoints as [|cp rest].
  - exists w. repeat split. exact H.
  - rewrite SaveCodePoints_inserts;
      [|discriminate|now apply faultFree_nextFault].
    rewrite (insertBatches_ok (length (cp :: rest)));
      [| rewrite length_stampedCodePoints; lia | apply Forall_tl, H ].
    eexists; split; [reflexivity|].
    split; [apply Forall_skipn', Forall_tl, H|].
    split; [reflexivity|]. split; [|reflexivity].
    destruct w as [u [|cd ci] b t i fs cs]; reflexivity.
Qed.

Lemma stampBlocks_eq (now : Time) : forall bs w,
  stampBlocks now bs w =
  (stampedBlocks now (lastID w) bs,
   mkWorld (ucd w) (CodePoints w) (blocks w) (clock w)
     (lastID w + N.of_nat (length bs))%N (faults w) (calls w)).
Proof.
  induction bs as [|b rest IH]; intros w.
  - destruct w. simpl. unfold ret. now rewrite N.add_0_r.
  - cbn [stampBlocks stampedBlocks length].
    unfold bind, NewObjectID, ret. rewrite IH.
    cbn [ucd CodePoints blocks clock lastID faults calls].
    do 2 f_equal. rewrite Nat2N.inj_succ. lia.
Qed.

Lemma SaveBlocks_ok (bs : list Block.t) (w : World) :
  faultFree w ->
  exists w',
    SaveBlocks bs w = (None, w') /\ faultFree w'
    /\ ucd w' = ucd w
    /\ CodePoints w' = CodePoints w
    /\ blocks w' =
       match bs with
       | [] => blocks w
       | _ => Present (stampedBlocks (clock w) (lastID w) bs) (indexes (blocks w))
       end.
Proof.
  intros H. destruct bs as [|b0 rest].
  - exists w. repeat split. exact H.
  - destruct w as [u c b t i fs cs]. unfold faultFree in H. simpl in H.
    unfold SaveBlocks. change (length (b0 :: rest) =? 0)%nat with false.
    cbv iota. unfold bind at 1, DeleteMany, bind, ret, request, update.
    rewrite faultFree_head by exact H.
    cbn [name get put blocksH ucd CodePoints blocks clock lastID faults calls
         set_blocks].
    unfold time_Now, bind.
    cbn [ucd CodePoints blocks clock lastID faults calls].
    rewrite stampBlocks_eq.
    cbn [ucd CodePoints blocks clock lastID faults calls stampedBlocks].
    unfold InsertMany, bind, ret, request, update.
    cbn [ucd CodePoints blocks clock lastID faults calls name get put blocksH
         set_blocks].
    rewrite faultFree_head by (apply Forall_tl; exact H).
    eexists; split; [reflexivity|]. simpl.
    split; [repeat apply Forall_tl; exact H|].
    repeat split. destruct b; reflexivity.
Qed.

(** *** What a save assigns afresh *)

Lemma erase_stampedCodePoints (now : Time) : forall codePoints last,
  map eraseCodePoint (stampedCodePoints now last codePoints)
  = map eraseCodePoint codePoints.
Proof.
  induction codePoints as [|cp rest IH]; intros last; simpl; [reflexivity|].
  f_equal; [|apply IH]. now split_code_point cp.
Qed.

Lemma erase_stampedBlocks (now : Time) : forall bs last,
  map eraseBlock (stampedBlocks now last bs) = map eraseBlock bs.
Proof.
  induction bs as [|b rest IH]; intros last; simpl; [reflexivity|].
  f_equal; [|apply IH]. now destruct b.
Qed.

(** *** The whole run *)

Section RunProperties.

Variable TrimSpace : string -> string.

Lemma run_ok (source : UCD.t) (w : World) :
  faultFree w ->
  let codePoints := fst (fst (Parser.ProcessUCDForMongoDB TrimSpace source)) in
  let bs := Parser.ExtractBlocks source in
  exists w',
    Main.run TrimSpace source w = (None, w') /\ faultFree w'
    /\ eraseCollection eraseUCD (ucd w') = Present [metadataOf source] []
    /\ eraseCollection eraseCodePoint (CodePoints w') =
       Present
         (replaced (map eraseCodePoint (docs (CodePoints w)))
            (map eraseCodePoint codePoints))
         codePointIndexes
    /\ eraseCollection eraseBlock (blocks w') =
       Present (replaced (map eraseBlock (docs (blocks w))) (map eraseBlock bs))
         blockIndexes.
Proof.
  intros H. cbv zeta. unfold Main.run.
  rewrite ProcessUCDForMongoDB_eq. cbn [fst snd].
  set (codePoints := map _ (filter accepted _)).
  set (bs := Parser.ExtractBlocks source).
  destruct (CreateIndexes_ok w H) as (w1 & E1 & H1 & U1 & C1 & B1).
  unfold bind at 1. rewrite E1.
  destruct (SaveUCD_ok (UCD.set_Version "16.0.0" source) w1 H1)
    as (w2 & E2 & H2 & U2 & C2 & B2).
  unfold bind at 1. rewrite E2.
  destruct (SaveCodePoints_ok codePoints w2 H2)
    as (w3 & E3 & H3 & U3 & C3 & B3).
  unfold bind at 1. rewrite E3.
  destruct (SaveBlocks_ok bs w3 H3) as (w4 & E4 & H4 & U4 & C4 & B4).
  unfold bind at 1. rewrite E4.
  exists w4. split; [reflexivity|]. split; [exact H4|].
  rewrite U4, U3, U2, C4, C3, C2, C1, B4, B3, B2, B1.
  split; [|split].
  - destruct source. reflexivity.
  - destruct codePoints as [|cp rest]; [reflexivity|].
    cbn [eraseCollection indexes]. now rewrite erase_stampedCodePoints.
  - destruct bs as [|b0 rest]; [reflexivity|].
    cbn [eraseCollection indexes]. now rewrite erase_stampedBlocks.
Qed.

Lemma replaced_replaced {A : Type} (old new : list A) :
  replaced (replaced old new) new = replaced old new.
Proof. now destruct new. Qed.

(** C8.  Running the pipeline twice on the same source, with no driver call
    failing, ends both times in the same destination state, whatever the
    state was before the first run: both runs succeed, and after the second
    the three collections hold what they held after the first, up to the
    identities and timestamps of the documents.  When the source has code
    points and blocks, every save replaces what was there, so the final
    state does not depend on the initial one at all.  (A save of an empty
    sequence is a no-op and keeps the old documents; the second run then
    keeps them too.) *)
Theorem pipeline_rerun_same_state (source : UCD.t) (w : World) :
  faultFree w ->
  let first := Main.run TrimSpace source w in
  let second := Main.run TrimSpace source (snd first) in
  fst first = None /\ fst second = None
  /\ sameDestination (snd first) (snd second)
  /\ (fst (fst (Parser.ProcessUCDForMongoDB TrimSpace source)) <> [] ->
      Parser.ExtractBlocks source <> [] ->
      forall w0, faultFree w0 ->
        sameDestination (snd first) (snd (Main.run TrimSpace source w0))).
Proof.
  intros H. cbv zeta.
  destruct (run_ok source w H) as (w1 & E1 & H1 & U1 & C1 & B1).
  rewrite E1. cbn [fst snd].
  destruct (run_ok source w1 H1) as (w2 & E2 & H2 & U2 & C2 & B2).
  rewrite E2. cbn [fst snd].
  split; [reflexivity|]. split; [reflexivity|]. split.
  - unfold sameDestination. rewrite U1, U2, C1, C2, B1, B2.
    split; [reflexivity|].
    assert (D : forall (A : Type) (erase : A -> A) (c : Collection A),
              map erase (docs c) = docs (eraseCollection erase c))
      by (intros A erase [|d i]; reflexivity).
    rewrite (D _ eraseCodePoint (CodePoints w1)), (D _ eraseBlock (blocks w1)).
    rewrite C1, B1. cbn [docs].
    now rewrite !replaced_replaced.
  - intros Hc Hb w0 H0.
    destruct (run_ok source w0 H0) as (w3 & E3 & H3 & U3 & C3 & B3).
    rewrite E3. cbn [fst snd].
    unfold sameDestination. rewrite U1, U3, C1, C3, B1, B3.
    split; [reflexivity|].
    destruct (fst (fst (Parser.ProcessUCDForMongoDB TrimSpace source)));
      [congruence|].
    destruct (Parser.ExtractBlocks source); [congruence|].
    split; reflexivity.
Qed.

End RunProperties.

Lemma pipeline_rerun_same_state_witness :
  faultFree (emptyWorld [])
  /\ (let first := Main.run Strings.TrimSpace sampleUCD (emptyWorld []) in
      let second := Main.run Strings.TrimSpace sampleUCD (snd first) in
      fst first = None /\ fst second = None
      /\ sameDestination (snd first) (snd second)
      /\ (fst (fst (Parser.ProcessUCDForMongoDB Strings.TrimSpace sampleUCD))
          <> [] ->
          Parser.ExtractBlocks sampleUCD <> [] ->
          forall w0, faultFree w0 ->
            sameDestination (snd first)
              (snd (Main.run Strings.TrimSpace sampleUCD w0)))).
Proof.
  assert (H : faultFree (emptyWorld [])) by constructor.
  split; [exact H|].
  exact (pipeline_rerun_same_state Strings.TrimSpace sampleUCD (emptyWorld []) H).
Defined.

(** ** The model at work *)

(** The scenario of the specification: one normal record, one reserved
    range and one block give two code point documents, the second marked as
    reserved, and one block document; looking up ["0041"] returns the first,
    normalized. *)
Example scenario_two_code_points_one_block :
  let w := snd (Main.run Strings.TrimSpace sampleUCD (emptyWorld [])) in
  map CodePoint.CP (docs (CodePoints w)) = ["0041"; ""]%string
  /\ map CodePoint.FirstCP (docs (CodePoints w)) = [""; "0378"]%string
  /\ map CodePoint.Deprecated (docs (CodePoints w)) = [false; true]
  /\ map Block.Name (docs (blocks w)) = ["ASCII"]%string
  /\ option_map CodePoint.Name (fst (fst (GetCodePointByCP "0041" w)))
     = Some "LATIN CAPITAL LETTER A"%string
  /\ option_map CodePoint.BidiMirroringGlyph
       (fst (fst (GetCodePointByCP "0041" w))) = Some ""%string
  /\ fst (GetCodePointByCP "0042" w) = (None, None).
Proof. vm_compute. repeat split. Qed.

(** 2500 records whose second batch fails: the first batch stays, the error
    names the positions 1000 to 2000, the third batch is never sent. *)
Example second_batch_fails :
  let r := SaveCodePoints manyCodePoints (emptyWorld secondBatchFails) in
  fst r =
    Some (ErrorfW "failed to insert code points batch 1000-2000: boom"
            (DriverError "boom"))
  /\ length (docs (CodePoints (snd r))) = 1003
  /\ calls (snd r) =
       [CallDeleteMany "code_points"; CallInsertMany "code_points" 1000;
        CallInsertMany "code_points" 1000].
Proof. vm_compute. repeat split. Qed.

(** A record with both a single code value and a range is accepted and
    stored. *)
Example both_identities_stored :
  let w := snd (Main.run Strings.TrimSpace (ucdOf [bothIdentities] [] [] [])
                  (emptyWorld [])) in
  map CodePoint.CP (docs (CodePoints w)) = ["0041"]%string
  /\ map CodePoint.FirstCP (docs (CodePoints w)) = ["0041"]%string
  /\ map CodePoint.LastCP (docs (CodePoints w)) = ["005A"]%string.
Proof. vm_compute. repeat split. Qed.

(** A first run on a server without the collections: dropping the indexes
    fails with the server's namespace-not-found error, which
    [CreateIndexes] takes for success. *)
Example first_run_creates_indexes :
  fst (DropAll CodePointsH (emptyWorld []))
    = Some (DriverError "(NamespaceNotFound) ns not found")
  /\ fst (CreateIndexes (emptyWorld [])) = None
  /\ indexes (CodePoints (snd (CreateIndexes (emptyWorld []))))
     = codePointIndexes
  /\ indexes (blocks (snd (CreateIndexes (emptyWorld [])))) = blockIndexes.
Proof. vm_compute. repeat split. Qed.
